(** * Canteen storefront: cart, identity, order and menu stores

    A shallow embedding of the four stateful stores of [src/js/app.ts]
    ([CartManager], [UserManager], [MenuManager], [OrderManager]) and the
    properties the specification states about them.

    Conventions of the embedding.
    - A JavaScript [number] that holds an identifier, a price or a quantity
      is an integer of [Z].
    - An optional field ([isNew?], [estimatedTime?], ...) is an [option].
    - An array is a [list]; [findItem] and [findIndex] are the two helper
      loops of the source, [findIndex] returning [-1] when nothing matches.
    - A [localStorage] key holds the JSON text of a value; it is modelled by
      the value itself, [None] when the key is absent.  For the keys of the
      user store every call of [setItem] or [removeItem] is also recorded
      in a log, so that "nothing was written" can be told apart from "the
      same text was written".
    - Menu dishes are objects shared between the active list and the
      archive: the menu store keeps a heap of objects and both lists hold
      references into it.
    - DOM rendering, toasts and modal plumbing are left out; what a modal
      hands to its callback is an input of the handler that opened it. *)

From stdpp Require Import base option list gmap strings sorting pretty.
From Stdlib Require Import ZArith Sorting.Sorted Ascii.

Local Open Scope Z_scope.

(* ================================================================= *)
(** ** Data types *)

Module MenuItem.
Record t := mk {
  id : Z;
  name : string;
  price : Z;
  description : string;
  category : string;
  image : string;
  isNew : option bool;
  isActive : option bool
}.

(** [item.isActive = v] *)
Definition set_isActive (v : bool) (item : t) : t :=
  mk (id item) (name item) (price item) (description item)
     (category item) (image item) (isNew item) (Some v).

(** Two dish values that agree on every field other than [isActive]. *)
Definition sameButActive (x y : t) : Prop :=
  id x = id y ∧ name x = name y ∧ price x = price y ∧
  description x = description y ∧ category x = category y ∧
  image x = image y ∧ isNew x = isNew y.
End MenuItem.

(** [Omit<MenuItem, 'id' | 'isActive'>], the argument of [addMenuItem]. *)
Module Draft.
Record t := mk {
  name : string;
  price : Z;
  description : string;
  category : string;
  image : string;
  isNew : option bool
}.
End Draft.

(** [Partial<MenuItem>], the argument of [updateMenuItem]. *)
Module Updates.
Record t := mk {
  id : option Z;
  name : option string;
  price : option Z;
  description : option string;
  category : option string;
  image : option string;
  isNew : option bool;
  isActive : option bool
}.
End Updates.

Module CartItem.
(** [interface CartItem extends MenuItem { quantity }]: the dish fields
    and the quantity. *)
Record t := mk {
  dish : MenuItem.t;
  quantity : Z
}.

Definition id (c : t) : Z := MenuItem.id (dish c).
Definition price (c : t) : Z := MenuItem.price (dish c).

(** [line.quantity = q] *)
Definition set_quantity (q : Z) (c : t) : t := mk (dish c) q.
End CartItem.

Module User.
Record t := mk {
  id : Z;
  email : string;
  name : string;
  studentId : string;
  isAdmin : bool;
  phone : option string
}.
End User.

Inductive OrderStatus : Type :=
  | pending
  | preparing
  | ready
  | completed
  | cancelled.

Global Instance OrderStatus_eq_dec : EqDecision OrderStatus.
Proof. solve_decision. Defined.

Module Order.
Record t := mk {
  id : Z;
  userId : Z;
  items : list CartItem.t;
  total : Z;
  orderNumber : string;
  date : string;
  status : OrderStatus;
  estimatedTime : option string
}.

(** [order.status = s] *)
Definition set_status (s : OrderStatus) (o : t) : t :=
  mk (id o) (userId o) (items o) (total o) (orderNumber o) (date o)
     s (estimatedTime o).

(** [order.estimatedTime = e] *)
Definition set_estimatedTime (e : string) (o : t) : t :=
  mk (id o) (userId o) (items o) (total o) (orderNumber o) (date o)
     (status o) (Some e).

(** Two orders that agree on every field other than [status] and
    [estimatedTime]. *)
Definition sameButStatusAndTime (x y : t) : Prop :=
  id x = id y ∧ userId x = userId y ∧ items x = items y ∧
  total x = total y ∧ orderNumber x = orderNumber y ∧ date x = date y.
End Order.

(* ================================================================= *)
(** ** The helper loops [findItem] and [findIndex] *)

Fixpoint findItem {T : Type} (array : list T) (predicate : T -> bool)
  : option T :=
  match array with
  | [] => None
  | x :: rest => if predicate x then Some x else findItem rest predicate
  end.

Fixpoint findIndex {T : Type} (array : list T) (predicate : T -> bool) : Z :=
  match array with
  | [] => -1
  | x :: rest =>
      if predicate x then 0
      else let i := findIndex rest predicate in
           if i =? -1 then -1 else i + 1
  end.

(** What [findItem] returns is the object in the first matching cell, so an
    assignment through the returned reference changes that cell. *)
Fixpoint writeFound {T : Type} (array : list T) (predicate : T -> bool)
    (f : T -> T) : list T :=
  match array with
  | [] => []
  | x :: rest =>
      if predicate x then f x :: rest
      else x :: writeFound rest predicate f
  end.

(** JavaScript truthiness of a string-valued argument that may be missing:
    [undefined], [false] and the empty string are falsy. *)
Definition truthy (s : option string) : bool :=
  match s with
  | Some v => negb (String.eqb v "")
  | None => false
  end.

(* ================================================================= *)
(** ** CartManager *)

Module CartManager.

Record t := mk {
  items : list CartItem.t;
  (** [localStorage] key ['cart'] *)
  stored : option (list CartItem.t)
}.

(** A cart constructed over an empty profile. *)
Definition empty : t := mk [] None.

Definition saveToStorage (c : t) : t := mk (items c) (Some (items c)).

Definition addItem (item : MenuItem.t) (c : t) : t :=
  let same := fun cartItem => CartItem.id cartItem =? MenuItem.id item in
  saveToStorage
    match findItem (items c) same with
    | Some existingItem =>
        mk (writeFound (items c) same
              (fun e => CartItem.set_quantity (CartItem.quantity e + 1) e))
           (stored c)
    | None =>
        mk (items c ++ [CartItem.mk item 1]) (stored c)
    end.

Definition removeItem (itemId : Z) (c : t) : t :=
  saveToStorage
    (mk (filter (fun item => CartItem.id item ≠ itemId) (items c))
        (stored c)).

Definition updateQuantity (itemId : Z) (quantity : Z) (c : t) : t :=
  let same := fun cartItem => CartItem.id cartItem =? itemId in
  match findItem (items c) same with
  | Some item =>
      saveToStorage
        (if quantity <=? 0 then removeItem itemId c
         else mk (writeFound (items c) same (CartItem.set_quantity quantity))
                 (stored c))
  | None => c
  end.

Definition getTotal (c : t) : Z :=
  foldl (fun total item =>
           total + CartItem.price item * CartItem.quantity item)
        0 (items c).

Definition clear (c : t) : t := saveToStorage (mk [] (stored c)).

(** The three operations of the cart, for sequences of calls. *)
Inductive op : Type :=
  | AddItem (item : MenuItem.t)
  | RemoveItem (itemId : Z)
  | UpdateQuantity (itemId : Z) (quantity : Z).

Definition step (c : t) (o : op) : t :=
  match o with
  | AddItem item => addItem item c
  | RemoveItem itemId => removeItem itemId c
  | UpdateQuantity itemId quantity => updateQuantity itemId quantity c
  end.

Definition run (ops : list op) (c : t) : t := foldl step c ops.

(** The dish ids of the lines, in order. *)
Definition ids (c : t) : list Z := CartItem.id <$> items c.

Definition loadFromStorage (c : t) : t :=
  match stored c with
  | Some saved => mk saved (stored c)
  | None => c
  end.

(** [new CartManager()] over the stored key. *)
Definition new (saved : option (list CartItem.t)) : t :=
  loadFromStorage (mk [] saved).

Definition getItems (c : t) : list CartItem.t := items c.

(** The click handler of the [+] and [-] buttons of a cart line
    ([setupEventHandlers]): the line is looked up with [find], and its
    quantity plus or minus one goes to [updateQuantity]. *)
Definition quantityClick (itemId : Z) (isPlus : bool) (c : t) : t :=
  match findItem (getItems c) (fun item => CartItem.id item =? itemId) with
  | Some cartItem =>
      let newQuantity :=
        if isPlus then CartItem.quantity cartItem + 1
        else CartItem.quantity cartItem - 1 in
      updateQuantity itemId newQuantity c
  | None => c
  end.

End CartManager.

(* ================================================================= *)
(** ** UserManager: the roster, the session and the order collection *)

Module UserManager.

Record t := mk {
  currentUser : option User.t;
  users : list User.t;
  orders : list Order.t;
  (** [localStorage] keys ['currentUser'], ['users'] and ['orders'] *)
  ls_currentUser : option User.t;
  ls_users : option (list User.t);
  ls_orders : option (list Order.t);
  (** keys passed to [setItem] or [removeItem], most recent first *)
  ls_log : list string
}.

Definition adminUser : User.t :=
  User.mk 1 "admin@sibsiu.ru" "Администратор Столовой" "ADMIN001" true None.

Definition testStudent : User.t :=
  User.mk 2 "student@sibsiu.ru" "Иванов Иван Иванович" "202412345" false None.

Definition set_currentUser (u : option User.t) (um : t) : t :=
  mk u (users um) (orders um)
     (ls_currentUser um) (ls_users um) (ls_orders um) (ls_log um).

Definition saveCurrentUserToStorage (um : t) : t :=
  match currentUser um with
  | Some u =>
      mk (currentUser um) (users um) (orders um)
         (Some u) (ls_users um) (ls_orders um)
         ("currentUser" :: ls_log um)
  | None => um
  end.

Definition saveUsersToStorage (um : t) : t :=
  mk (currentUser um) (users um) (orders um)
     (ls_currentUser um) (Some (users um)) (ls_orders um)
     ("users" :: ls_log um).

(** [localStorage.setItem('orders', JSON.stringify(v))] *)
Definition setItem_orders (v : list Order.t) (um : t) : t :=
  mk (currentUser um) (users um) (orders um)
     (ls_currentUser um) (ls_users um) (Some v)
     ("orders" :: ls_log um).

Definition saveOrdersToStorage (um : t) : t := setItem_orders (orders um) um.

Definition initializeUsers (um : t) : t :=
  saveUsersToStorage
    (mk (currentUser um) [adminUser; testStudent] (orders um)
        (ls_currentUser um) (ls_users um) (ls_orders um) (ls_log um)).

Definition loadCurrentUser (um : t) : t :=
  match ls_currentUser um with
  | Some saved => set_currentUser (Some saved) um
  | None => um
  end.

(** [new UserManager()] over the given stored keys. *)
Definition new (stored_currentUser : option User.t)
    (stored_users : option (list User.t))
    (stored_orders : option (list Order.t)) : t :=
  loadCurrentUser
    (initializeUsers
       (mk None [] [] stored_currentUser stored_users stored_orders [])).

Definition login (email password : string) (um : t) : bool * t :=
  match findItem (users um) (fun u => String.eqb (User.email u) email) with
  | Some user =>
      if String.eqb password "password" then
        (true, saveCurrentUserToStorage (set_currentUser (Some user) um))
      else (false, um)
  | None => (false, um)
  end.

Definition logout (um : t) : t :=
  mk None (users um) (orders um)
     None (ls_users um) (ls_orders um)
     ("currentUser" :: ls_log um).

Definition getCurrentUser (um : t) : option User.t := currentUser um.

Definition addOrder (order : Order.t) (um : t) : t :=
  saveOrdersToStorage
    (mk (currentUser um) (users um) (orders um ++ [order])
        (ls_currentUser um) (ls_users um) (ls_orders um) (ls_log um)).

Definition getAllOrders (um : t) : list Order.t :=
  match ls_orders um with
  | Some saved => saved
  | None => []
  end.

Definition updateOrderStatus (orderId : Z) (newStatus : OrderStatus)
    (estimatedTime : option string) (um : t) : bool * t :=
  let orders := getAllOrders um in
  let orderIndex := findIndex orders (fun order => Order.id order =? orderId) in
  if negb (orderIndex =? -1) then
    let orders := alter (Order.set_status newStatus) (Z.to_nat orderIndex) orders in
    let orders :=
      match estimatedTime with
      | Some e =>
          if truthy estimatedTime
          then alter (Order.set_estimatedTime e) (Z.to_nat orderIndex) orders
          else orders
      | None => orders
      end in
    (true, setItem_orders orders um)
  else (false, um).

Definition getOrdersByStatus (status : OrderStatus) (um : t) : list Order.t :=
  filter (fun order => Order.status order = status) (getAllOrders um).

Definition getUserOrders (userId : Z) (um : t) : list Order.t :=
  filter (fun order => Order.userId order = userId) (getAllOrders um).

Definition getOrderHistory (userId : Z) (um : t) : list Order.t :=
  filter (fun order => Order.userId order = userId) (orders um).

(** A page reload: a new [UserManager] over what is stored. *)
Definition reload (um : t) : t :=
  new (ls_currentUser um) (ls_users um) (ls_orders um).

End UserManager.

(* ================================================================= *)
(** ** [Array.prototype.sort] with a comparator *)

(** A comparator returns a number; [None] stands for [NaN], which the sort
    reads as [0].  The sort is stable, and for a consistent comparator all
    stable sorts return the same array; it is computed here by insertion,
    an element staying in front of the ones it does not compare greater
    than.  For a comparator that is not consistent, [NaN] on some pairs and
    a number on others, the language leaves the order to the engine and
    this insertion need not agree with it; the properties below use [sort]
    only where every comparison is [NaN] or every comparison is a
    number. *)
Definition SortCompare {T : Type} (comparefn : T -> T -> option Z) (x y : T) : Z :=
  match comparefn x y with
  | Some v => v
  | None => 0
  end.

Fixpoint sortInsert {T : Type} (comparefn : T -> T -> option Z) (x : T)
    (sorted : list T) : list T :=
  match sorted with
  | [] => [x]
  | y :: rest =>
      if SortCompare comparefn x y <=? 0 then x :: y :: rest
      else y :: sortInsert comparefn x rest
  end.

Definition sort {T : Type} (comparefn : T -> T -> option Z) (array : list T)
  : list T :=
  foldr (sortInsert comparefn) [] array.

(* ================================================================= *)
(** ** OrderManager: the admin order view *)

Module OrderManager.

(** The string value of a status, as stored and as used in [data-action]
    and [data-status] attributes. *)
Definition statusString (s : OrderStatus) : string :=
  match s with
  | pending => "pending"
  | preparing => "preparing"
  | ready => "ready"
  | completed => "completed"
  | cancelled => "cancelled"
  end.

(** The orders a status filter selects from a sequence: all of them for
    ['all'], otherwise those whose status is the filter. *)
Definition selected (filterStatus : string) (l : list Order.t) : list Order.t :=
  if String.eqb filterStatus "all" then l
  else filter (fun order => statusString (Order.status order) = filterStatus) l.

Section Listing.

(** [new Date(text).getTime()]: the time value the host's [Date] reads
    from a date text, in milliseconds, [None] for an invalid date
    ([NaN]).  Which texts are read, and how, is left to the host. *)
Variable getTime : string -> option Z.

(** [(a, b) => new Date(b.date).getTime() - new Date(a.date).getTime()] *)
Definition byDate (a b : Order.t) : option Z :=
  match getTime (Order.date b), getTime (Order.date a) with
  | Some tb, Some ta => Some (tb - ta)
  | _, _ => None
  end.

(** The time read from an order's date, [0] standing in for [NaN]. *)
Definition timeOf (o : Order.t) : Z :=
  match getTime (Order.date o) with
  | Some t => t
  | None => 0
  end.

(** The sequence [loadAdminOrders] hands to [renderAdminOrders] (when
    the list container is missing from the page nothing is rendered). *)
Definition loadAdminOrders (filterStatus : string) (um : UserManager.t)
  : list Order.t :=
  let allOrders := UserManager.getAllOrders um in
  let sortedOrders := sort byDate allOrders in
  if String.eqb filterStatus "all" then sortedOrders
  else filter (fun order => statusString (Order.status order) = filterStatus)
              sortedOrders.

End Listing.

(** The [data-action] values of the buttons rendered for an order, in
    document order. *)
Definition renderStatusButtons (currentStatus : OrderStatus) : list string :=
  (if decide (currentStatus = pending) then ["preparing"; "cancelled"] else [])
  ++ (if decide (currentStatus = preparing) then ["ready"; "cancelled"] else [])
  ++ (if decide (currentStatus = ready) then ["completed"] else [])
  ++ (if decide (currentStatus ≠ completed ∧ currentStatus ≠ cancelled)
      then ["set_time"] else []).

(** What the modal opened by an action hands to its callback: the answer
    of the cancel confirmation, and the time of the set-time form
    ([None] for [false], the form being dismissed). *)
Record reply := mkReply {
  confirmed : bool;
  time : option string
}.

(** The store after [handleOrderAction] and the callback of the modal it
    may open; the listing is redrawn in every branch. *)
Definition handleOrderAction (orderId : Z) (action : option string)
    (r : reply) (um : UserManager.t) : UserManager.t :=
  match action with
  | Some a =>
      if String.eqb a "preparing" then
        (UserManager.updateOrderStatus orderId preparing None um).2
      else if String.eqb a "ready" then
        (UserManager.updateOrderStatus orderId ready None um).2
      else if String.eqb a "completed" then
        (UserManager.updateOrderStatus orderId completed None um).2
      else if String.eqb a "cancelled" then
        if confirmed r
        then (UserManager.updateOrderStatus orderId cancelled None um).2
        else um
      else if String.eqb a "set_time" then
        if truthy (time r)
        then (UserManager.updateOrderStatus orderId preparing (time r) um).2
        else um
      else um
  | None => um
  end.

(** The stored status of the first order with the given id. *)
Definition statusOf (orderId : Z) (um : UserManager.t) : option OrderStatus :=
  Order.status <$>
    findItem (UserManager.getAllOrders um) (fun o => Order.id o =? orderId).

(** One status change made from the admin view: an order of the stored
    collection is shown with the buttons of its status, one of them is
    pressed, the modal it may open is answered, and the order has the
    status [s'] afterwards. *)
Inductive adminStep (um : UserManager.t) : OrderStatus -> OrderStatus -> Prop :=
  | AdminStep (o : Order.t) (action : string) (r : reply) (s' : OrderStatus) :
      findItem (UserManager.getAllOrders um)
               (fun x => Order.id x =? Order.id o) = Some o ->
      action ∈ renderStatusButtons (Order.status o) ->
      statusOf (Order.id o)
               (handleOrderAction (Order.id o) (Some action) r um) = Some s' ->
      adminStep um (Order.status o) s'.

End OrderManager.

(* ================================================================= *)
(** ** Checkout: [processOrder] *)

(** What [processOrder] reads from its surroundings: the two readings of
    [Date.now()] (for the order number, then for the id), the [ru-RU]
    text of the current time, and the value of the pickup-time select,
    [None] when the select is missing from the page (reading its value
    then throws, and the [catch] branch only shows a toast). *)
Record checkoutInput := mkCheckoutInput {
  nowForNumber : Z;
  nowForId : Z;
  nowText : string;
  orderTime : option string
}.

(** What the shopper is shown. *)
Inductive checkoutOutcome : Type :=
  | LoginRequired
  | EmptyCartAlert
  | ChooseTime
  | CheckoutError
  | OrderPlaced (orderNumber : string).

(** [text.slice(-n)]: the last [n] characters, the whole text when it is
    shorter. *)
Definition sliceLast (n : nat) (text : string) : string :=
  String.substring (String.length text - n) n text.

Definition processOrder (i : checkoutInput) (um : UserManager.t)
    (cart : CartManager.t) : checkoutOutcome * UserManager.t * CartManager.t :=
  match UserManager.getCurrentUser um with
  | None => (LoginRequired, um, cart)
  | Some user =>
      let cartItems := CartManager.getItems cart in
      if (length cartItems =? 0)%nat then (EmptyCartAlert, um, cart)
      else
        match orderTime i with
        | None => (CheckoutError, um, cart)
        | Some selectedTime =>
            if negb (truthy (Some selectedTime)) then (ChooseTime, um, cart)
            else
              let total := CartManager.getTotal cart in
              let orderNumber :=
                String.append "ORD" (sliceLast 6 (pretty (nowForNumber i))) in
              let order :=
                Order.mk (nowForId i) (User.id user) cartItems total
                  orderNumber (nowText i) pending (Some selectedTime) in
              (OrderPlaced orderNumber,
               UserManager.addOrder order um,
               CartManager.clear cart)
        end
  end.

(* ================================================================= *)
(** ** MenuManager: the active menu and the archive *)

Global Instance MenuItem_inhabited : Inhabited MenuItem.t :=
  populate (MenuItem.mk 0 "" 0 "" "" "" None None).

Module MenuManager.

(** Dishes are objects; [items], [filteredItems] and [allDishes] are
    arrays of references to them.  [addMenuItem] pushes one object onto
    both arrays, so a later write through one array is seen through the
    other. *)
Record t := mk {
  heap : gmap nat MenuItem.t;
  items : list nat;
  filteredItems : list nat;
  allDishes : list nat;
  (** [localStorage] keys ['menuItems'] and ['allDishes'] *)
  stored_menuItems : option (list MenuItem.t);
  stored_allDishes : option (list MenuItem.t)
}.

(** The object a reference points to. *)
Definition deref (h : gmap nat MenuItem.t) (r : nat) : MenuItem.t := h !!! r.

(** [JSON.stringify] of an array of dishes: the objects' values. *)
Definition snapshot (h : gmap nat MenuItem.t) (l : list nat) : list MenuItem.t :=
  deref h <$> l.

(** The dishes of the active list and of the archive, as values. *)
Definition getMenuItems (m : t) : list MenuItem.t := snapshot (heap m) (items m).
Definition getAllDishes (m : t) : list MenuItem.t := snapshot (heap m) (allDishes m).

(** A reference no object of the heap has yet: [{ ... }] allocates. *)
Definition alloc (h : gmap nat MenuItem.t) : nat := fresh (dom h).

(** The store before [loadMenu] has run, over an empty profile. *)
Definition empty : t := mk ∅ [] [] [] None None.

Definition saveMenuToStorage (m : t) : t :=
  mk (heap m) (items m) (filteredItems m) (allDishes m)
     (Some (snapshot (heap m) (items m))) (stored_allDishes m).

Definition saveAllDishesToStorage (m : t) : t :=
  mk (heap m) (items m) (filteredItems m) (allDishes m)
     (stored_menuItems m) (Some (snapshot (heap m) (allDishes m))).

(** [this.filteredItems = [...this.items]] *)
Definition resetFilter (m : t) : t :=
  mk (heap m) (items m) (items m) (allDishes m)
     (stored_menuItems m) (stored_allDishes m).

(** [Math.max(...this.allDishes.map(dish => dish.id), 0) + 1] *)
Definition generateId (m : t) : Z :=
  let maxId := foldr Z.max 0 (MenuItem.id <$> getAllDishes m) in
  maxId + 1.


Definition newItem (item : Draft.t) (m : t) : MenuItem.t :=
  MenuItem.mk (generateId m) (Draft.name item) (Draft.price item)
    (Draft.description item) (Draft.category item) (Draft.image item)
    (Draft.isNew item) (Some true).

Definition addMenuItem (item : Draft.t) (m : t) : t :=
  let r := alloc (heap m) in
  let h := <[r := newItem item m]> (heap m) in
  resetFilter
    (saveAllDishesToStorage
       (saveMenuToStorage
          (mk h (items m ++ [r]) (filteredItems m) (allDishes m ++ [r])
              (stored_menuItems m) (stored_allDishes m)))).

(** [{ ...old, ...updates }] *)
Definition merge (old : MenuItem.t) (updates : Updates.t) : MenuItem.t :=
  MenuItem.mk
    (default (MenuItem.id old) (Updates.id updates))
    (default (MenuItem.name old) (Updates.name updates))
    (default (MenuItem.price old) (Updates.price updates))
    (default (MenuItem.description old) (Updates.description updates))
    (default (MenuItem.category old) (Updates.category updates))
    (default (MenuItem.image old) (Updates.image updates))
    (match Updates.isNew updates with Some b => Some b | None => MenuItem.isNew old end)
    (match Updates.isActive updates with Some b => Some b | None => MenuItem.isActive old end).

Definition hasId (h : gmap nat MenuItem.t) (itemId : Z) (r : nat) : bool :=
  MenuItem.id (deref h r) =? itemId.

Definition updateMenuItem (itemId : Z) (updates : Updates.t) (m : t) : t :=
  let itemIndex := findIndex (items m) (hasId (heap m) itemId) in
  let m1 :=
    if negb (itemIndex =? -1) then
      let r := alloc (heap m) in
      mk (<[r := merge (deref (heap m) (items m !!! Z.to_nat itemIndex)) updates]> (heap m))
         (<[Z.to_nat itemIndex := r]> (items m))
         (filteredItems m) (allDishes m)
         (stored_menuItems m) (stored_allDishes m)
    else m in
  let allDishIndex := findIndex (allDishes m1) (hasId (heap m1) itemId) in
  let m2 :=
    if negb (allDishIndex =? -1) then
      let r := alloc (heap m1) in
      mk (<[r := merge (deref (heap m1) (allDishes m1 !!! Z.to_nat allDishIndex)) updates]> (heap m1))
         (items m1) (filteredItems m1)
         (<[Z.to_nat allDishIndex := r]> (allDishes m1))
         (stored_menuItems m1) (stored_allDishes m1)
    else m1 in
  resetFilter (saveAllDishesToStorage (saveMenuToStorage m2)).

Definition isDishActive (dishId : Z) (m : t) : bool :=
  existsb (hasId (heap m) dishId) (items m).

Definition addExistingDish (dishId : Z) (m : t) : t :=
  match findItem (allDishes m) (hasId (heap m) dishId) with
  | Some d =>
      if negb (isDishActive dishId m) then
        let r := alloc (heap m) in
        let activeDish := MenuItem.set_isActive true (deref (heap m) d) in
        resetFilter
          (saveMenuToStorage
             (mk (<[r := activeDish]> (heap m)) (items m ++ [r])
                 (filteredItems m) (allDishes m)
                 (stored_menuItems m) (stored_allDishes m)))
      else m
  | None => m
  end.

Definition removeMenuItem (itemId : Z) (m : t) : t :=
  let itemIndex := findIndex (items m) (hasId (heap m) itemId) in
  if negb (itemIndex =? -1) then
    let r := items m !!! Z.to_nat itemIndex in
    resetFilter
      (saveMenuToStorage
         (mk (alter (MenuItem.set_isActive false) r (heap m))
             (delete (Z.to_nat itemIndex) (items m))
             (filteredItems m) (allDishes m)
             (stored_menuItems m) (stored_allDishes m)))
  else m.

Definition getMenuItemById (itemId : Z) (m : t) : option MenuItem.t :=
  deref (heap m) <$> findItem (allDishes m) (hasId (heap m) itemId).

Definition getInactiveDishes (m : t) : list MenuItem.t :=
  let activeIds := MenuItem.id <$> getMenuItems m in
  filter (fun dish => MenuItem.id dish ∉ activeIds) (getAllDishes m).

Definition deletePermanent (itemId : Z) (m : t) : t :=
  let allDishIndex := findIndex (allDishes m) (hasId (heap m) itemId) in
  let allDishes' :=
    if negb (allDishIndex =? -1)
    then delete (Z.to_nat allDishIndex) (allDishes m) else allDishes m in
  let menuIndex := findIndex (items m) (hasId (heap m) itemId) in
  let items' :=
    if negb (menuIndex =? -1)
    then delete (Z.to_nat menuIndex) (items m) else items m in
  resetFilter
    (saveAllDishesToStorage
       (saveMenuToStorage
          (mk (heap m) items' (filteredItems m) allDishes'
              (stored_menuItems m) (stored_allDishes m)))).

(** Every reference held by the store points to an object of the heap. *)
Definition wf (m : t) : Prop :=
  (∀ r, r ∈ items m -> r ∈ dom (heap m)) ∧
  (∀ r, r ∈ allDishes m -> r ∈ dom (heap m)).

(** The admin operations on the menu, for sequences of calls. *)
Inductive op : Type :=
  | AddMenuItem (item : Draft.t)
  | UpdateMenuItem (itemId : Z) (updates : Updates.t)
  | AddExistingDish (dishId : Z)
  | RemoveMenuItem (itemId : Z)
  | DeletePermanent (itemId : Z).

Definition step (m : t) (o : op) : t :=
  match o with
  | AddMenuItem item => addMenuItem item m
  | UpdateMenuItem itemId updates => updateMenuItem itemId updates m
  | AddExistingDish dishId => addExistingDish dishId m
  | RemoveMenuItem itemId => removeMenuItem itemId m
  | DeletePermanent itemId => deletePermanent itemId m
  end.

Definition run (ops : list op) (m : t) : t := foldl step m ops.

(** The operations as the admin pages issue them: the edit form sends
    name, price, description, category, image and isNew, never an id. *)
Definition fromForms (o : op) : Prop :=
  match o with
  | UpdateMenuItem _ updates => Updates.id updates = None
  | _ => True
  end.

(** Every archive dish has a positive id. *)
Definition positiveIds (m : t) : Prop :=
  ∀ d, d ∈ getAllDishes m -> 0 < MenuItem.id d.

(** The category filter of the menu page. *)
Definition filterItems (category : string) (m : t) : t :=
  mk (heap m) (items m)
     (if String.eqb category "Все" then items m
      else filter (fun r => MenuItem.category (deref (heap m) r) = category)
                  (items m))
     (allDishes m) (stored_menuItems m) (stored_allDishes m).

(** [JSON.parse] of an array of dishes: one new object per element. *)
Fixpoint parseDishes (h : gmap nat MenuItem.t) (values : list MenuItem.t)
  : gmap nat MenuItem.t * list nat :=
  match values with
  | [] => (h, [])
  | v :: rest =>
      let r := alloc h in
      let parsed := parseDishes (<[r := v]> h) rest in
      (parsed.1, r :: parsed.2)
  end.

Definition initializeDefaultMenu (m : t) : t :=
  saveAllDishesToStorage
    (saveMenuToStorage
       (mk (heap m) [] (filteredItems m) []
           (stored_menuItems m) (stored_allDishes m))).

Definition loadMenuFromStorage (m : t) : t :=
  resetFilter
    match stored_menuItems m with
    | Some saved =>
        let parsed := parseDishes (heap m) saved in
        mk parsed.1
           (filter (fun r => MenuItem.isActive (deref parsed.1 r) ≠ Some false)
                   parsed.2)
           (filteredItems m) (allDishes m)
           (stored_menuItems m) (stored_allDishes m)
    | None => initializeDefaultMenu m
    end.

(** [loadMenu], given what the remote menu request came to: [Some menuData]
    when it answered, [None] when it failed (the request made by
    [getMenu] carries no method, so the client's own fallback does not
    apply and the failure reaches the [catch] of [loadMenu]). *)
Definition loadMenu (remote : option (list MenuItem.t)) (m : t) : t :=
  match remote with
  | Some menuData =>
      let parsed := parseDishes (heap m) menuData in
      mk parsed.1 parsed.2 parsed.2 (allDishes m)
         (Some (snapshot parsed.1 parsed.2)) (stored_allDishes m)
  | None => loadMenuFromStorage m
  end.

(** [new MenuManager()] over the stored keys, once [loadMenu] has run. *)
Definition new (storedMenu storedArchive : option (list MenuItem.t))
    (remote : option (list MenuItem.t)) : t :=
  loadMenu remote (mk ∅ [] [] [] storedMenu storedArchive).

(** The ids of the active list and of the archive, in order. *)
Definition activeIds (m : t) : list Z := MenuItem.id <$> getMenuItems m.
Definition archiveIds (m : t) : list Z := MenuItem.id <$> getAllDishes m.

(** A list of ids without the first occurrence of [x]. *)
Fixpoint dropFirst (x : Z) (ids : list Z) : list Z :=
  match ids with
  | [] => []
  | y :: rest => if y =? x then rest else y :: dropFirst x rest
  end.

(** The admin operations seen on the two id lists alone. *)
Definition stepIds (s : list Z * list Z) (o : op) : list Z * list Z :=
  match o with
  | AddMenuItem _ =>
      let fresh := foldr Z.max 0 s.2 + 1 in
      (s.1 ++ [fresh], s.2 ++ [fresh])
  | UpdateMenuItem _ _ => s
  | AddExistingDish dishId =>
      if decide (dishId ∈ s.2 ∧ dishId ∉ s.1) then (s.1 ++ [dishId], s.2) else s
  | RemoveMenuItem itemId => (dropFirst itemId s.1, s.2)
  | DeletePermanent itemId => (dropFirst itemId s.1, dropFirst itemId s.2)
  end.

End MenuManager.

(** One click on an add-to-cart button of the menu.  Two listeners hear
    it, in this order: the button's own ([setupAddToCartHandlers], which
    looks the dish up in the active list) and the document's
    ([setupEventHandlers], which looks it up in the archive with
    [getMenuItemById]); each calls [addItem] when it finds the dish. *)
Definition addToCartClick (itemId : Z) (menu : MenuManager.t)
    (cart : CartManager.t) : CartManager.t :=
  let cart :=
    match findItem (MenuManager.items menu)
            (MenuManager.hasId (MenuManager.heap menu) itemId) with
    | Some r => CartManager.addItem (MenuManager.deref (MenuManager.heap menu) r) cart
    | None => cart
    end in
  match MenuManager.getMenuItemById itemId menu with
  | Some item => CartManager.addItem item cart
  | None => cart
  end.

(* ================================================================= *)
(** ** SimpleMap *)

Module SimpleMap.
Section WithKeys.
Context {K V : Type} `{EqDecision K}.

(** [items]: the array of [{key, value}] entries. *)
Definition sameKey (key : K) (item : K * V) : bool := bool_decide (item.1 = key).

Definition set (key : K) (value : V) (items : list (K * V)) : list (K * V) :=
  let index := findIndex items (sameKey key) in
  if negb (index =? -1)
  then alter (fun item => (item.1, value)) (Z.to_nat index) items
  else items ++ [(key, value)].

(** [undefined] is [None]. *)
Definition get (key : K) (items : list (K * V)) : option V :=
  match findItem items (sameKey key) with
  | Some item => Some item.2
  | None => None
  end.

Definition has (key : K) (items : list (K * V)) : bool :=
  negb (findIndex items (sameKey key) =? -1).

(** The keys in the order [forEach] visits them. *)
Definition keys (items : list (K * V)) : list K := fst <$> items.

End WithKeys.
End SimpleMap.

(* ================================================================= *)
(** ** Text helpers: [escapeHtml] and the pickup-time field *)

(** Texts are strings of bytes; every character these helpers look for or
    produce is an ASCII character, which is one byte, and no byte of a
    longer character equals one. *)

(** [text.replace(/c/g, by)] for a pattern of one character. *)
Fixpoint replaceAll (c : Ascii.ascii) (by_ : string) (text : string) : string :=
  match text with
  | EmptyString => EmptyString
  | String a rest =>
      if Ascii.eqb a c then String.append by_ (replaceAll c by_ rest)
      else String a (replaceAll c by_ rest)
  end.

(** The double quote character. *)
Definition doubleQuote : Ascii.ascii := "034"%char.

Definition escapeHtml (unsafe : string) : string :=
  replaceAll "'"%char "&#039;"
    (replaceAll doubleQuote "&quot;"
       (replaceAll ">"%char "&gt;"
          (replaceAll "<"%char "&lt;"
             (replaceAll "&"%char "&amp;" unsafe)))).

(** What [escapeHtml] puts in place of one character. *)
Definition escapeChar (a : Ascii.ascii) : string :=
  if Ascii.eqb a "&"%char then "&amp;"
  else if Ascii.eqb a "<"%char then "&lt;"
  else if Ascii.eqb a ">"%char then "&gt;"
  else if Ascii.eqb a doubleQuote then "&quot;"
  else if Ascii.eqb a "'"%char then "&#039;"
  else String a EmptyString.

(** Whether a character is one of the four the escaping has to remove. *)
Definition isMarkup (a : Ascii.ascii) : bool :=
  Ascii.eqb a "<"%char || Ascii.eqb a ">"%char
  || Ascii.eqb a doubleQuote || Ascii.eqb a "'"%char.

Fixpoint allChars (test : Ascii.ascii -> bool) (text : string) : bool :=
  match text with
  | EmptyString => true
  | String a rest => test a && allChars test rest
  end.

(** [0-9] *)
Definition isDigit (a : Ascii.ascii) : bool :=
  (48 <=? Ascii.nat_of_ascii a)%nat && (Ascii.nat_of_ascii a <=? 57)%nat.

Definition charBetween (lo hi a : Ascii.ascii) : bool :=
  (Ascii.nat_of_ascii lo <=? Ascii.nat_of_ascii a)%nat && (Ascii.nat_of_ascii a <=? Ascii.nat_of_ascii hi)%nat.

(** [/^(0[0-9]|1[0-9]|2[0-3]):[0-5][0-9]$/.test(time)] *)
Definition validateTimeFormat (time : string) : bool :=
  match time with
  | String h1 (String h2 (String colon (String m1 (String m2 EmptyString)))) =>
      ((Ascii.eqb h1 "0"%char && isDigit h2)
       || (Ascii.eqb h1 "1"%char && isDigit h2)
       || (Ascii.eqb h1 "2"%char && charBetween "0"%char "3"%char h2))
      && Ascii.eqb colon ":"%char
      && charBetween "0"%char "5"%char m1
      && isDigit m2
  | _ => false
  end.

(** [text.replace(/\D/g, '')] *)
Fixpoint digitsOnly (text : string) : string :=
  match text with
  | EmptyString => EmptyString
  | String a rest =>
      if isDigit a then String a (digitsOnly rest) else digitsOnly rest
  end.

(** [text.substring(from, to)] and [text.substring(from)] *)
Definition substring (from to : nat) (text : string) : string :=
  String.substring from (to - from) text.
Definition substringFrom (from : nat) (text : string) : string :=
  String.substring from (String.length text - from) text.

(** [parseInt(text)] for a text that starts with decimal digits: the number
    its leading digits spell; [None] is [NaN]. *)
Fixpoint leadingDigits (text : string) (acc : option Z) : option Z :=
  match text with
  | String a rest =>
      if isDigit a
      then leadingDigits rest
             (Some (10 * default 0 acc + Z.of_nat (Ascii.nat_of_ascii a - 48)))
      else acc
  | EmptyString => acc
  end.
Definition parseInt (text : string) : option Z := leadingDigits text None.

(** [n > bound] for a number that may be [NaN]. *)
Definition greaterThan (n : option Z) (bound : Z) : bool :=
  match n with
  | Some v => bound <? v
  | None => false
  end.

(** The [input] listener of the time field ([setupTimeValidation]): what
    the field holds after the listener ran on the typed text. *)
Definition formatTimeInput (typed : string) : string :=
  let value := digitsOnly typed in
  if (0 <? String.length value)%nat then
    let value := substring 0 4 value in
    let value :=
      if (3 <=? String.length value)%nat
      then String.append (substring 0 2 value)
             (String.append ":" (substringFrom 2 value))
      else value in
    let value :=
      if (2 <=? String.length value)%nat
      then if greaterThan (parseInt (substring 0 2 value)) 23
           then String.append "23" (substringFrom 2 value)
           else value
      else value in
    let value :=
      if (5 <=? String.length value)%nat
      then if greaterThan (parseInt (substring 3 5 value)) 59
           then String.append (substring 0 3 value) "59"
           else value
      else value in
    value
  else value.

(* ================================================================= *)
(** ** FeedbackManager *)

Module Feedback.
Record t := mk {
  id : Z;
  name : string;
  email : string;
  message : string;
  date : string
}.
End Feedback.

Module FeedbackManager.

Record t := mk {
  feedbacks : list Feedback.t;
  (** [localStorage] key ['feedbacks'] *)
  stored : option (list Feedback.t)
}.

Definition loadFeedbacksFromStorage (fm : t) : t :=
  match stored fm with
  | Some saved => mk saved (stored fm)
  | None => fm
  end.

(** [new FeedbackManager()] over the stored key. *)
Definition new (saved : option (list Feedback.t)) : t :=
  loadFeedbacksFromStorage (mk [] saved).

Definition generateFeedbackId (fm : t) : Z :=
  let maxId := foldr Z.max 0 (Feedback.id <$> feedbacks fm) in
  maxId + 1.

Definition saveFeedbacksToStorage (fm : t) : t :=
  mk (feedbacks fm) (Some (feedbacks fm)).

(** What the feedback form submits, and the [ru-RU] text of the clock. *)
Record submission := mkSubmission {
  name : string;
  email : string;
  message : string;
  dateText : string
}.

Definition handleFeedback (form : submission) (fm : t) : t :=
  let feedback :=
    Feedback.mk (generateFeedbackId fm) (name form) (email form)
      (message form) (dateText form) in
  saveFeedbacksToStorage (mk (feedbacks fm ++ [feedback]) (stored fm)).

Definition run (forms : list submission) (fm : t) : t :=
  foldl (fun fm form => handleFeedback form fm) fm forms.

End FeedbackManager.

(* ================================================================= *)
(** ** Derived notions and sample stores *)

(** The order an update leaves in place of a matching order [o]: the new
    status, and the time argument only when it is truthy. *)
Definition updated (newStatus : OrderStatus) (estimatedTime : option string)
    (o : Order.t) : Order.t :=
  Order.mk (Order.id o) (Order.userId o) (Order.items o) (Order.total o)
    (Order.orderNumber o) (Order.date o) newStatus
    (if truthy estimatedTime then estimatedTime else Order.estimatedTime o).

(** Two dishes and a cart holding both, used to run the operations. *)
Definition borscht : MenuItem.t :=
  MenuItem.mk 1 "Борщ" 150 "Суп" "Первые блюда" "borscht.png" None (Some true).
Definition tea : MenuItem.t :=
  MenuItem.mk 2 "Чай" 80 "Напиток" "Напитки" "tea.png" (Some true) (Some true).
Definition lunchCart : CartManager.t :=
  CartManager.addItem tea
    (CartManager.addItem borscht
       (CartManager.addItem borscht CartManager.empty)).

(** A store over an empty profile, and the same store with the seeded
    student signed in. *)
Definition freshUsers : UserManager.t := UserManager.new None None None.
Definition studentSignedIn : UserManager.t :=
  (UserManager.login "student@sibsiu.ru" "password" freshUsers).2.

(** Two stored orders of the seeded student: one ready, one pending. *)
Definition order101 : Order.t :=
  Order.mk 101 2 [CartItem.mk borscht 2] 300 "ORD000101"
    "13.01.2026, 10:00:00" ready (Some "12:00").
Definition order102 : Order.t :=
  Order.mk 102 2 [CartItem.mk tea 1] 80 "ORD000102"
    "14.01.2026, 10:00:00" pending (Some "12:30").
Definition kitchen : UserManager.t :=
  UserManager.addOrder order102 (UserManager.addOrder order101 freshUsers).

(** The number two digit characters spell, and the time [HH:MM] four
    digit characters spell once the hours are capped at 23 and the
    minutes at 59. *)
Definition digitValue (a : Ascii.ascii) : Z := Z.of_nat (Ascii.nat_of_ascii a) - 48.
Definition twoDigits (a b : Ascii.ascii) : Z := 10 * digitValue a + digitValue b.
Definition clampedTime (d1 d2 d3 d4 : Ascii.ascii) : string :=
  String.append
    (if 23 <? twoDigits d1 d2 then "23" else String d1 (String d2 EmptyString))
    (String.append ":"
       (if 59 <? twoDigits d3 d4 then "59" else String d3 (String d4 EmptyString))).

(** Drafts as the admin form submits them, and stores built from them. *)
Definition borschtDraft : Draft.t :=
  Draft.mk "Борщ" 150 "Суп" "Первые блюда" "borscht.png" (Some false).
Definition teaDraft : Draft.t :=
  Draft.mk "Чай" 80 "Напиток" "Напитки" "tea.png" (Some true).
Definition oneDish : MenuManager.t :=
  MenuManager.addMenuItem borschtDraft MenuManager.empty.
Definition twoDishes : MenuManager.t :=
  MenuManager.addMenuItem teaDraft oneDish.

(* ================================================================= *)
(** * Properties *)

(** ** The helper loops *)

Section Find.
Context {T : Type}.
Implicit Types (array : list T) (predicate : T -> bool).

Lemma findItem_None array predicate :
  findItem array predicate = None <-> ∀ x, x ∈ array -> predicate x = false.
Proof.
  induction array as [|y rest IH]; simpl.
  - split; [intros _ x Hx; inversion Hx | done].
  - destruct (predicate y) eqn:Hy.
    + split; [done |]. intros H. rewrite H in Hy; [done | left].
    + rewrite IH. split.
      * intros H x Hx. inversion Hx; subst; auto.
      * intros H x Hx. apply H. by right.
Qed.

(** The found element sits behind a prefix on which the predicate fails. *)
Lemma findItem_Some array predicate x :
  findItem array predicate = Some x <->
  ∃ before after,
    array = before ++ x :: after ∧ predicate x = true ∧
    ∀ y, y ∈ before -> predicate y = false.
Proof.
  induction array as [|y rest IH]; simpl.
  - split; [done |]. intros (b & a & H & _). by destruct b.
  - destruct (predicate y) eqn:Hy.
    + split.
      * intros [= ->]. exists [], rest. repeat split; auto.
        intros z Hz. inversion Hz.
      * intros (b & a & H & Hx & Hb). destruct b as [|z b]; simpl in H.
        -- congruence.
        -- injection H as -> _. rewrite Hb in Hy; [done | left].
    + rewrite IH. split.
      * intros (b & a & -> & Hx & Hb). exists (y :: b), a.
        repeat split; auto. intros z Hz. inversion Hz; subst; auto.
      * intros (b & a & H & Hx & Hb). destruct b as [|z b]; simpl in H.
        -- injection H as -> _. congruence.
        -- injection H as -> ->. exists b, a. repeat split; auto.
           intros w Hw. apply Hb. by right.
Qed.

Lemma findIndex_range array predicate :
  findIndex array predicate = -1 ∨
  0 <= findIndex array predicate < Z.of_nat (length array).
Proof.
  induction array as [|y rest IH]; simpl; [by left |].
  destruct (predicate y); [right; lia |].
  destruct (Z.eqb_spec (findIndex rest predicate) (-1)); [by left | right; lia].
Qed.

(** [findIndex] and [findItem] agree: [-1] exactly when nothing is found,
    otherwise the index of the found cell. *)
Lemma findIndex_None array predicate :
  findIndex array predicate = -1 <-> findItem array predicate = None.
Proof.
  induction array as [|y rest IH]; simpl; [done |].
  destruct (predicate y); [done |].
  destruct (Z.eqb_spec (findIndex rest predicate) (-1)) as [E|E].
  - split; [intros _; by apply IH | done].
  - pose proof (findIndex_range rest predicate) as Hr.
    split; [lia | intros Hn; apply IH in Hn; done].
Qed.

Lemma findIndex_lookup array predicate :
  findIndex array predicate ≠ -1 ->
  array !! Z.to_nat (findIndex array predicate) = findItem array predicate.
Proof.
  induction array as [|y rest IH]; simpl; [done |].
  destruct (predicate y); [done |].
  destruct (Z.eqb_spec (findIndex rest predicate) (-1)) as [E|E]; [done |].
  intros _. pose proof (findIndex_range rest predicate).
  replace (Z.to_nat (findIndex rest predicate + 1))
    with (S (Z.to_nat (findIndex rest predicate))) by lia.
  simpl. by apply IH.
Qed.

(** Writing through the found reference rewrites the found cell only. *)
Lemma writeFound_split before x after predicate (f : T -> T) :
  predicate x = true ->
  (∀ y, y ∈ before -> predicate y = false) ->
  writeFound (before ++ x :: after) predicate f = before ++ f x :: after.
Proof.
  intros Hx. induction before as [|y b IH]; simpl; intros Hb.
  - by rewrite Hx.
  - rewrite Hb by left. f_equal. apply IH. intros z Hz. apply Hb. by right.
Qed.

Lemma writeFound_absent array predicate (f : T -> T) :
  findItem array predicate = None -> writeFound array predicate f = array.
Proof.
  induction array as [|y rest IH]; simpl; [done |].
  destruct (predicate y); [done |]. intros H. f_equal. by apply IH.
Qed.

End Find.

(* ================================================================= *)
(** ** Cart ledger *)

Section Cart.
Import CartManager.

Implicit Types (c : CartManager.t) (l : list CartItem.t).

Lemma findItem_id_None l itemId :
  findItem l (fun cartItem => CartItem.id cartItem =? itemId) = None <->
  itemId ∉ CartItem.id <$> l.
Proof.
  rewrite findItem_None. split.
  - intros H (x & -> & Hx)%list_elem_of_fmap. specialize (H x Hx). lia.
  - intros H x Hx. destruct (Z.eqb_spec (CartItem.id x) itemId); [|done].
    destruct H. subst. by apply list_elem_of_fmap_2.
Qed.

Lemma ids_writeFound l (predicate : CartItem.t -> bool) (f : CartItem.t -> CartItem.t) :
  (∀ x, CartItem.id (f x) = CartItem.id x) ->
  CartItem.id <$> writeFound l predicate f = CartItem.id <$> l.
Proof.
  intros Hf. induction l as [|y rest IH]; cbn [writeFound]; [done |].
  destruct (predicate y); rewrite !fmap_cons; [by rewrite Hf | by rewrite IH].
Qed.

Lemma ids_filter_NoDup l (P : CartItem.t -> Prop) `{Pdec : !∀ x, Decision (P x)} :
  NoDup (CartItem.id <$> l) -> NoDup (CartItem.id <$> filter P l).
Proof.
  induction l as [|y rest IH]; simpl; [done |].
  rewrite NoDup_cons. intros [Hy Hrest].
  rewrite filter_cons. destruct (decide (P y)); simpl; [|by apply IH].
  apply NoDup_cons. split; [|by apply IH].
  intros (x & Hx & Hin)%list_elem_of_fmap. apply Hy.
  rewrite Hx. apply list_elem_of_fmap_2.
  by apply list_elem_of_filter in Hin as [_ ?].
Qed.

Lemma filter_absent l itemId :
  itemId ∉ CartItem.id <$> l ->
  filter (fun item => CartItem.id item ≠ itemId) l = l.
Proof.
  induction l as [|y rest IH]; simpl; [done |].
  rewrite not_elem_of_cons. intros [Hy Hrest].
  rewrite filter_cons. destruct (decide (CartItem.id y ≠ itemId)); [|done].
  f_equal. by apply IH.
Qed.

Lemma addItem_NoDup item c : NoDup (ids c) -> NoDup (ids (addItem item c)).
Proof.
  unfold ids, addItem. intros H.
  destruct (findItem _ _) eqn:E; simpl.
  - by rewrite ids_writeFound.
  - apply findItem_id_None in E. rewrite fmap_app. simpl.
    apply NoDup_app. repeat split; [done | | apply NoDup_singleton].
    intros x Hx ->%list_elem_of_singleton. done.
Qed.

Lemma removeItem_NoDup itemId c : NoDup (ids c) -> NoDup (ids (removeItem itemId c)).
Proof. unfold ids, removeItem. simpl. apply ids_filter_NoDup. Qed.

Lemma updateQuantity_NoDup itemId quantity c :
  NoDup (ids c) -> NoDup (ids (updateQuantity itemId quantity c)).
Proof.
  unfold updateQuantity. intros H.
  destruct (findItem _ _); [|done].
  destruct (quantity <=? 0).
  - by apply (removeItem_NoDup itemId) in H.
  - unfold ids. simpl. by rewrite ids_writeFound.
Qed.

Lemma step_NoDup c o : NoDup (ids c) -> NoDup (ids (step c o)).
Proof.
  destruct o; simpl;
    auto using addItem_NoDup, removeItem_NoDup, updateQuantity_NoDup.
Qed.

(** C6. Starting from an empty cart, after any finite sequence of
    [addItem], [removeItem] and [updateQuantity] calls, with any
    arguments, no two lines of the cart have the same dish id. *)
Theorem cart_lines_have_distinct_ids (ops : list op) :
  NoDup (ids (run ops empty)).
Proof.
  unfold run.
  assert (H : NoDup (ids empty)) by constructor.
  revert H. generalize empty.
  induction ops as [|o ops IH]; simpl; intros c H; [done |].
  apply IH. by apply step_NoDup.
Qed.

End Cart.

Section CartQuantity.
Import CartManager.

Implicit Types (c : CartManager.t).

Lemma updateQuantity_absent c itemId n :
  itemId ∉ ids c -> updateQuantity itemId n c = c.
Proof.
  intros H. apply findItem_id_None in H.
  unfold updateQuantity. by rewrite H.
Qed.

Lemma updateQuantity_nonpositive c itemId n :
  n <= 0 -> items (updateQuantity itemId n c) = items (removeItem itemId c).
Proof.
  intros Hn. unfold updateQuantity.
  destruct (findItem _ _) eqn:E.
  - destruct (Z.leb_spec n 0); [done | lia].
  - apply findItem_id_None in E. simpl. by rewrite filter_absent.
Qed.

Lemma updateQuantity_positive c itemId n before line after :
  0 < n ->
  items c = before ++ line :: after ->
  CartItem.id line = itemId ->
  itemId ∉ CartItem.id <$> before ->
  items (updateQuantity itemId n c)
  = before ++ CartItem.set_quantity n line :: after.
Proof.
  intros Hn Hc Hid Hb.
  assert (Hline : (CartItem.id line =? itemId) = true) by lia.
  assert (Hbefore : ∀ y, y ∈ before -> (CartItem.id y =? itemId) = false).
  { intros y Hy. apply Z.eqb_neq. intros <-. apply Hb.
    by apply list_elem_of_fmap_2. }
  unfold updateQuantity.
  assert (E : findItem (items c) (fun cartItem => CartItem.id cartItem =? itemId)
              = Some line).
  { apply findItem_Some. by exists before, after. }
  rewrite E. destruct (Z.leb_spec n 0); [lia |]. simpl.
  rewrite Hc. by apply writeFound_split.
Qed.

End CartQuantity.

Example lunchCart_lines :
  CartManager.items lunchCart = [CartItem.mk borscht 2; CartItem.mk tea 1].
Proof. reflexivity. Qed.

Example lunchCart_total : CartManager.getTotal lunchCart = 380.
Proof. reflexivity. Qed.

(** C7. For every cart and dish id, [updateQuantity(id, 0)] leaves the line
    list as [removeItem(id)] leaves it, and so does [updateQuantity(id, n)]
    for every [n <= 0]; for [n > 0] and a line of that id in the cart, the
    first such line gets quantity exactly [n] and nothing else changes. *)
Theorem updateQuantity_removes_or_sets (c : CartManager.t) (itemId n : Z) :
  CartManager.items (CartManager.updateQuantity itemId 0 c)
  = CartManager.items (CartManager.removeItem itemId c) ∧
  (n <= 0 ->
   CartManager.items (CartManager.updateQuantity itemId n c)
   = CartManager.items (CartManager.removeItem itemId c)) ∧
  (0 < n ->
   ∀ before line after,
     CartManager.items c = before ++ line :: after ->
     CartItem.id line = itemId ->
     itemId ∉ CartItem.id <$> before ->
     CartManager.items (CartManager.updateQuantity itemId n c)
     = before ++ CartItem.mk (CartItem.dish line) n :: after).
Proof.
  split; [|split].
  - by apply updateQuantity_nonpositive.
  - apply updateQuantity_nonpositive.
  - intros Hn before line after. by apply updateQuantity_positive.
Qed.

Lemma updateQuantity_removes_or_sets_witness :
  CartManager.items (CartManager.updateQuantity 1 (-3) lunchCart)
  = CartManager.items (CartManager.removeItem 1 lunchCart) ∧
  CartManager.items (CartManager.updateQuantity 2 5 lunchCart)
  = [CartItem.mk borscht 2; CartItem.mk tea 5].
Proof.
  split.
  - apply (updateQuantity_removes_or_sets lunchCart 1 (-3)). lia.
  - apply (proj2 (proj2 (updateQuantity_removes_or_sets lunchCart 2 5))
             eq_refl [CartItem.mk borscht 2] (CartItem.mk tea 1) []).
    + reflexivity.
    + reflexivity.
    + apply (bool_decide_unpack _). vm_compute. exact I.
Defined.

(** C10. For every quantity [n], positive or not, and every cart with no
    line of dish id [id], [updateQuantity(id, n)] leaves the cart as it
    is: the line list is unchanged, no line is created, and nothing is
    saved. *)
Theorem updateQuantity_absent_id_is_noop (c : CartManager.t) (itemId n : Z) :
  itemId ∉ CartManager.ids c ->
  CartManager.updateQuantity itemId n c = c.
Proof. apply updateQuantity_absent. Qed.

Lemma updateQuantity_absent_id_is_noop_witness :
  CartManager.updateQuantity 7 4 lunchCart = lunchCart.
Proof.
  apply (updateQuantity_absent_id_is_noop lunchCart 7 4).
  apply (bool_decide_unpack _). vm_compute. exact I.
Defined.

(* ================================================================= *)
(** ** Identity store *)

Section Identity.
Import UserManager.

Lemma findItem_email_None (roster : list User.t) (email : string) :
  findItem roster (fun u => String.eqb (User.email u) email) = None <->
  ∀ u, u ∈ roster -> User.email u ≠ email.
Proof.
  rewrite findItem_None. split; intros H u Hu; specialize (H u Hu).
  - by apply String.eqb_neq.
  - by apply String.eqb_neq.
Qed.

Lemma login_wrong_password um email password :
  password ≠ "password" -> login email password um = (false, um).
Proof.
  intros H%String.eqb_neq. unfold login. rewrite H.
  by destruct (findItem _ _).
Qed.

Lemma login_unknown_email um email password :
  (∀ u, u ∈ users um -> User.email u ≠ email) ->
  login email password um = (false, um).
Proof.
  intros H%findItem_email_None. unfold login. by rewrite H.
Qed.

(** The converse, for the record: with a roster user of that email and
    the constant password the call succeeds and signs that user in. *)
Lemma login_succeeds um email user :
  findItem (users um) (fun u => String.eqb (User.email u) email) = Some user ->
  (login email "password" um).1 = true ∧
  getCurrentUser (login email "password" um).2 = Some user.
Proof. intros H. unfold login. rewrite H. by simpl. Qed.

End Identity.

Example seeded_admin_logs_in :
  (UserManager.login "admin@sibsiu.ru" "password" freshUsers).1 = true ∧
  UserManager.getCurrentUser
    (UserManager.login "admin@sibsiu.ru" "password" freshUsers).2
  = Some UserManager.adminUser.
Proof. split; reflexivity. Qed.

Example studentSignedIn_session :
  UserManager.getCurrentUser studentSignedIn = Some UserManager.testStudent.
Proof. reflexivity. Qed.

(** C8. For every roster and every session state, signed out or signed in,
    a [login(email, password)] call that fails, because no roster user has
    exactly that email or because the password is not the constant
    ['password'], returns [false] and leaves the store as it was: the
    current user, a signed-in one included, and the stored session. *)
Theorem failed_login_leaves_session (um : UserManager.t) (email password : string) :
  (∀ u, u ∈ UserManager.users um -> User.email u ≠ email) ∨ password ≠ "password" ->
  UserManager.login email password um = (false, um).
Proof.
  intros [H|H].
  - by apply login_unknown_email.
  - by apply login_wrong_password.
Qed.

Lemma failed_login_leaves_session_witness :
  UserManager.login "student@sibsiu.ru" "wrong" studentSignedIn
  = (false, studentSignedIn) ∧
  UserManager.getCurrentUser studentSignedIn = Some UserManager.testStudent.
Proof.
  split; [|reflexivity].
  apply (failed_login_leaves_session studentSignedIn "student@sibsiu.ru" "wrong").
  right. discriminate.
Defined.

(* ================================================================= *)
(** ** Order ledger: [updateOrderStatus] *)

Section OrderStatusUpdate.
Import UserManager.

Lemma findIndex_split {T : Type} (before : list T) x after (predicate : T -> bool) :
  predicate x = true ->
  (∀ y, y ∈ before -> predicate y = false) ->
  findIndex (before ++ x :: after) predicate = Z.of_nat (length before).
Proof.
  intros Hx. induction before as [|y b IH]; simpl; intros Hb.
  - by rewrite Hx.
  - rewrite Hb by left. rewrite IH.
    + destruct (Z.eqb_spec (Z.of_nat (length b)) (-1)); lia.
    + intros z Hz. apply Hb. by right.
Qed.

Lemma alter_middle {T : Type} (f : T -> T) (before : list T) x after :
  alter f (length before) (before ++ x :: after) = before ++ f x :: after.
Proof.
  rewrite <- (Nat.add_0_r (length before)) at 1. by rewrite alter_app_r.
Qed.

Lemma findItem_orderId_None (l : list Order.t) orderId :
  findItem l (fun order => Order.id order =? orderId) = None <->
  ∀ o, o ∈ l -> Order.id o ≠ orderId.
Proof.
  rewrite findItem_None. split; intros H o Ho; specialize (H o Ho); lia.
Qed.

Lemma updateOrderStatus_not_found um orderId newStatus estimatedTime :
  (∀ o, o ∈ getAllOrders um -> Order.id o ≠ orderId) ->
  updateOrderStatus orderId newStatus estimatedTime um = (false, um).
Proof.
  intros H%findItem_orderId_None%findIndex_None.
  unfold updateOrderStatus. by rewrite H.
Qed.

Lemma updateOrderStatus_found_true um orderId newStatus estimatedTime :
  (∃ o, o ∈ getAllOrders um ∧ Order.id o = orderId) ->
  (updateOrderStatus orderId newStatus estimatedTime um).1 = true.
Proof.
  intros (o & Ho & Hid). unfold updateOrderStatus.
  destruct (Z.eqb_spec (findIndex (getAllOrders um)
                          (fun order => Order.id order =? orderId)) (-1))
    as [E|E]; [|done].
  apply findIndex_None in E.
  by destruct (proj1 (findItem_orderId_None _ _) E o Ho).
Qed.

Lemma updateOrderStatus_found um orderId newStatus estimatedTime before o after :
  getAllOrders um = before ++ o :: after ->
  Order.id o = orderId ->
  (∀ y, y ∈ before -> Order.id y ≠ orderId) ->
  updateOrderStatus orderId newStatus estimatedTime um
  = (true, setItem_orders (before ++ updated newStatus estimatedTime o :: after) um).
Proof.
  intros Hall Hid Hb. unfold updateOrderStatus. rewrite Hall.
  rewrite findIndex_split; [| lia | intros y Hy; specialize (Hb y Hy); lia].
  destruct (Z.eqb_spec (Z.of_nat (length before)) (-1)); [lia |]. simpl.
  rewrite Nat2Z.id, alter_middle.
  unfold updated. destruct estimatedTime as [e|]; simpl; [|done].
  destruct (negb (e =? "")%string); [|done].
  by rewrite alter_middle.
Qed.

End OrderStatusUpdate.

Example kitchen_orders : UserManager.getAllOrders kitchen = [order101; order102].
Proof. reflexivity. Qed.

(** C3. For every stored order collection and every [orderId] that matches
    no order in it, [updateOrderStatus] returns [false] and leaves the
    store exactly as it was, the write log included: nothing is written.
    When some stored order has that id it returns [true].  The function is
    total: there is no input on which it fails to return. *)
Theorem updateOrderStatus_reports_whether_found
    (um : UserManager.t) (orderId : Z) (newStatus : OrderStatus)
    (estimatedTime : option string) :
  ((∀ o, o ∈ UserManager.getAllOrders um -> Order.id o ≠ orderId) ->
   UserManager.updateOrderStatus orderId newStatus estimatedTime um = (false, um)) ∧
  ((∃ o, o ∈ UserManager.getAllOrders um ∧ Order.id o = orderId) ->
   (UserManager.updateOrderStatus orderId newStatus estimatedTime um).1 = true).
Proof.
  split.
  - apply updateOrderStatus_not_found.
  - apply updateOrderStatus_found_true.
Qed.

Lemma updateOrderStatus_reports_whether_found_witness :
  UserManager.updateOrderStatus 999 completed (Some "12:45") kitchen = (false, kitchen) ∧
  (UserManager.updateOrderStatus 102 preparing None kitchen).1 = true.
Proof.
  split.
  - apply (proj1 (updateOrderStatus_reports_whether_found kitchen 999 completed (Some "12:45"))).
    intros o Ho. rewrite kitchen_orders in Ho.
    apply elem_of_cons in Ho as [->|Ho]; [discriminate |].
    apply list_elem_of_singleton in Ho as ->. discriminate.
  - apply (proj2 (updateOrderStatus_reports_whether_found kitchen 102 preparing None)).
    exists order102. split; [|reflexivity].
    rewrite kitchen_orders. right. left.
Defined.

(** C9. When [updateOrderStatus] is called with the empty string as
    [estimatedTime] and the id matches a stored order, the first such
    order gets the new status, [true] is returned, and its stored
    [estimatedTime] stays as it was.  For any argument, the stored
    [estimatedTime] changes only to a non-empty argument. *)
Theorem empty_estimatedTime_is_not_written
    (um : UserManager.t) (orderId : Z) (newStatus : OrderStatus)
    (before : list Order.t) (o : Order.t) (after : list Order.t) :
  UserManager.getAllOrders um = before ++ o :: after ->
  Order.id o = orderId ->
  (∀ y, y ∈ before -> Order.id y ≠ orderId) ->
  UserManager.updateOrderStatus orderId newStatus (Some "") um
  = (true,
     UserManager.setItem_orders
       (before ++ Order.set_status newStatus o :: after) um) ∧
  ∀ estimatedTime, ∃ o',
    UserManager.updateOrderStatus orderId newStatus estimatedTime um
    = (true, UserManager.setItem_orders (before ++ o' :: after) um) ∧
    Order.status o' = newStatus ∧
    (Order.estimatedTime o' ≠ Order.estimatedTime o ->
     ∃ e, estimatedTime = Some e ∧ e ≠ "" ∧ Order.estimatedTime o' = Some e).
Proof.
  intros Hall Hid Hb. split.
  - by rewrite (updateOrderStatus_found um orderId newStatus (Some "") before o after).
  - intros estimatedTime. exists (updated newStatus estimatedTime o).
    split; [by apply updateOrderStatus_found |]. split; [done |].
    unfold updated. simpl. destruct estimatedTime as [e|]; simpl; [|done].
    destruct (String.eqb_spec e ""); simpl; [done |]. intros _. by exists e.
Qed.

Lemma empty_estimatedTime_is_not_written_witness :
  UserManager.updateOrderStatus 102 preparing (Some "") kitchen
  = (true,
     UserManager.setItem_orders
       [order101;
        Order.mk 102 2 [CartItem.mk tea 1] 80 "ORD000102"
          "14.01.2026, 10:00:00" preparing (Some "12:30")]
       kitchen).
Proof.
  apply (empty_estimatedTime_is_not_written kitchen 102 preparing
           [order101] order102 []).
  - reflexivity.
  - reflexivity.
  - intros y ->%list_elem_of_singleton. discriminate.
Defined.

(* ================================================================= *)
(** ** Order state machine as driven by the admin view *)

Section AdminView.
Import UserManager OrderManager.

Lemma statusOf_updateOrderStatus um orderId newStatus estimatedTime o :
  findItem (getAllOrders um) (fun x => Order.id x =? orderId) = Some o ->
  statusOf orderId (updateOrderStatus orderId newStatus estimatedTime um).2
  = Some newStatus.
Proof.
  intros (before & after & Hall & Hid & Hb)%findItem_Some.
  rewrite (updateOrderStatus_found um orderId newStatus estimatedTime before o after);
    [| done | lia | intros y Hy; specialize (Hb y Hy); lia].
  unfold statusOf, getAllOrders, setItem_orders. cbn [snd ls_orders].
  assert (E : findItem (before ++ updated newStatus estimatedTime o :: after)
                (fun x => Order.id x =? orderId)
              = Some (updated newStatus estimatedTime o)).
  { apply findItem_Some. exists before, after. by repeat split. }
  by rewrite E.
Qed.

Lemma statusOf_found um o :
  findItem (getAllOrders um) (fun x => Order.id x =? Order.id o) = Some o ->
  statusOf (Order.id o) um = Some (Order.status o).
Proof. intros H. unfold statusOf. by rewrite H. Qed.

(** The buttons rendered for each status. *)
Lemma renderStatusButtons_cases s :
  renderStatusButtons s =
  match s with
  | pending => ["preparing"; "cancelled"; "set_time"]
  | preparing => ["ready"; "cancelled"; "set_time"]
  | ready => ["completed"; "set_time"]
  | completed => []
  | cancelled => []
  end.
Proof. by destruct s. Qed.

(** Every step the admin view can make: the status stays, or moves along
    one of six edges, the last of which leads from [ready] back to
    [preparing]. *)
Lemma adminStep_edges um s s' :
  adminStep um s s' ->
  s' = s ∨
  (s = pending ∧ s' = preparing) ∨
  (s = pending ∧ s' = cancelled) ∨
  (s = preparing ∧ s' = ready) ∨
  (s = preparing ∧ s' = cancelled) ∨
  (s = ready ∧ s' = completed) ∨
  (s = ready ∧ s' = preparing).
Proof.
  intros [o action r t Hfind Hbtn Hafter].
  pose proof (statusOf_found um o Hfind) as Hsame.
  pose proof (fun st e => statusOf_updateOrderStatus um (Order.id o) st e o Hfind) as Hupd.
  rewrite renderStatusButtons_cases in Hbtn.
  unfold handleOrderAction in Hafter.
  destruct (Order.status o);
    repeat (apply elem_of_cons in Hbtn as [->|Hbtn]);
    try (by inversion Hbtn);
    simpl in Hafter;
    repeat match type of Hafter with
           | context [if ?b then _ else _] => destruct b
           end;
    rewrite ?Hupd, ?Hsame in Hafter; injection Hafter as <-; tauto.
Qed.

(** No admin action cancels an order that is ready, completed or already
    cancelled: [cancelled] is entered from [pending] or [preparing] only. *)
Lemma adminStep_cancel_sources um s :
  adminStep um s cancelled -> s = pending ∨ s = preparing ∨ s = cancelled.
Proof. intros H%adminStep_edges. intuition congruence. Qed.

(** No admin action puts an order back to [pending]. *)
Lemma adminStep_never_enters_pending um s :
  adminStep um s pending -> s = pending.
Proof. intros H%adminStep_edges. intuition congruence. Qed.

(** Completed and cancelled orders have no buttons: they are terminal. *)
Lemma adminStep_terminal um s s' :
  s = completed ∨ s = cancelled -> ¬ adminStep um s s'.
Proof.
  intros Hs H. revert Hs.
  destruct H as [o action r t Hfind Hbtn Hafter]. intros Hs.
  rewrite renderStatusButtons_cases in Hbtn.
  destruct Hs as [Hs|Hs]; rewrite Hs in Hbtn; inversion Hbtn.
Qed.

End AdminView.

(** C1. The admin view does not keep to the state machine: for the stored
    order 101, whose status is [ready], the rendered buttons include
    "set_time", and pressing it and submitting the time 12:45 writes the
    status [preparing], so [ready] has a second way out besides
    [completed]. *)
Theorem set_time_moves_ready_order_to_preparing :
  Order.status order101 = ready ∧
  "set_time" ∈ OrderManager.renderStatusButtons ready ∧
  UserManager.getAllOrders
    (OrderManager.handleOrderAction 101 (Some "set_time")
       (OrderManager.mkReply false (Some "12:45")) kitchen)
  = [Order.mk 101 2 [CartItem.mk borscht 2] 300 "ORD000101"
       "13.01.2026, 10:00:00" preparing (Some "12:45");
     order102] ∧
  OrderManager.adminStep kitchen ready preparing.
Proof.
  split; [reflexivity |]. split; [right; left |]. split; [reflexivity |].
  apply (OrderManager.AdminStep kitchen order101 "set_time"
           (OrderManager.mkReply false (Some "12:45")) preparing).
  - reflexivity.
  - right. left.
  - reflexivity.
Qed.

(* ================================================================= *)
(** ** The comparator sort *)

Section SortFacts.
Context {T : Type} (comparefn : T -> T -> option Z).
Implicit Types (l : list T).

Lemma sortInsert_Permutation x l : sortInsert comparefn x l ≡ₚ x :: l.
Proof.
  induction l as [|y rest IH]; simpl; [done |].
  destruct (_ <=? _); [done |].
  rewrite IH. apply Permutation_swap.
Qed.

Lemma sort_Permutation l : sort comparefn l ≡ₚ l.
Proof.
  induction l as [|x rest IH]; [done |].
  change (sort comparefn (x :: rest))
    with (sortInsert comparefn x (sort comparefn rest)).
  rewrite sortInsert_Permutation. by rewrite IH.
Qed.

(** An array in which no element compares greater than a later one is
    returned as it is. *)
Lemma sort_ordered l :
  StronglySorted (fun x y => SortCompare comparefn x y <= 0) l ->
  sort comparefn l = l.
Proof.
  induction l as [|x rest IH]; [done |].
  intros [Hx Hrest]%StronglySorted_cons.
  change (sort comparefn (x :: rest))
    with (sortInsert comparefn x (sort comparefn rest)).
  rewrite IH by done.
  destruct rest as [|y rest']; simpl; [done |].
  apply Forall_cons in Hx as [Hxy _].
  destruct (Z.leb_spec (SortCompare comparefn x y) 0); [done | lia].
Qed.

(** A comparator that answers [NaN] on the whole array sorts nothing. *)
Lemma sort_all_NaN l :
  (∀ x y, x ∈ l -> y ∈ l -> comparefn x y = None) ->
  sort comparefn l = l.
Proof.
  intros H. apply sort_ordered.
  induction l as [|x rest IH]; constructor.
  - apply IH. intros a b Ha Hb. apply H; by right.
  - apply Forall_forall. intros y Hy. unfold SortCompare.
    rewrite H; [done | left | by right].
Qed.

(** With a comparator that is the difference of a numeric key, later
    minus earlier argument reversed as in [b - a], the result descends
    along the key. *)
Variable key : T -> Z.

Lemma sortInsert_descending x l :
  (∀ y, y ∈ l -> comparefn x y = Some (key y - key x)) ->
  StronglySorted (fun a b => key b <= key a) l ->
  StronglySorted (fun a b => key b <= key a) (sortInsert comparefn x l).
Proof.
  induction l as [|y rest IH]; simpl; intros Hc Hs.
  - repeat constructor.
  - apply StronglySorted_cons in Hs as [Hy Hrest].
    unfold SortCompare. rewrite Hc by left.
    destruct (Z.leb_spec (key y - key x) 0).
    + apply StronglySorted_cons. split; [|by apply StronglySorted_cons].
      constructor; [lia |].
      eapply Forall_impl; [exact Hy |]. simpl. intros z Hz. lia.
    + apply StronglySorted_cons. split.
      * rewrite sortInsert_Permutation. constructor; [lia | done].
      * apply IH; [|done]. intros z Hz. apply Hc. by right.
Qed.

Lemma sort_descending l :
  (∀ x y, x ∈ l -> y ∈ l -> comparefn x y = Some (key y - key x)) ->
  StronglySorted (fun a b => key b <= key a) (sort comparefn l).
Proof.
  induction l as [|x rest IH]; intros Hc; [constructor |].
  change (sort comparefn (x :: rest))
    with (sortInsert comparefn x (sort comparefn rest)).
  apply sortInsert_descending.
  - intros y Hy. apply Hc; [left | right].
    by rewrite <- (sort_Permutation rest).
  - apply IH. intros a b Ha Hb. apply Hc; by right.
Qed.

End SortFacts.

(* ================================================================= *)
(** ** The admin order listing *)

Section AdminListing.
Import UserManager OrderManager.

Variable getTime : string -> option Z.

Lemma StronglySorted_filter {T : Type} (R : relation T) (P : T -> Prop)
    `{Pdec : !∀ x, Decision (P x)} (l : list T) :
  StronglySorted R l -> StronglySorted R (filter P l).
Proof.
  induction l as [|x rest IH]; [done |].
  intros [Hx Hrest]%StronglySorted_cons. rewrite filter_cons.
  destruct (decide (P x)); [|by apply IH].
  apply StronglySorted_cons. split; [|by apply IH].
  apply Forall_forall. intros y [_ Hy]%list_elem_of_filter.
  rewrite Forall_forall in Hx. by apply Hx.
Qed.

Lemma loadAdminOrders_selects filterStatus um :
  loadAdminOrders getTime filterStatus um
  = selected filterStatus (sort (byDate getTime) (getAllOrders um)).
Proof. reflexivity. Qed.

Lemma selected_Permutation filterStatus (l k : list Order.t) :
  l ≡ₚ k -> selected filterStatus l ≡ₚ selected filterStatus k.
Proof.
  intros H. unfold selected. destruct (String.eqb _ _); [done |].
  by rewrite H.
Qed.

(** When the host reads every stored date, the listing holds exactly the
    selected orders, latest read time first. *)
Lemma loadAdminOrders_read_dates filterStatus um :
  (∀ o, o ∈ getAllOrders um -> is_Some (getTime (Order.date o))) ->
  loadAdminOrders getTime filterStatus um
    ≡ₚ selected filterStatus (getAllOrders um) ∧
  StronglySorted (fun a b => timeOf getTime b <= timeOf getTime a)
    (loadAdminOrders getTime filterStatus um).
Proof.
  intros Hread. rewrite loadAdminOrders_selects. split.
  - apply selected_Permutation, sort_Permutation.
  - assert (Hs : StronglySorted (fun a b => timeOf getTime b <= timeOf getTime a)
                   (sort (byDate getTime) (getAllOrders um))).
    { apply sort_descending. intros a b Ha Hb. unfold byDate, timeOf.
      destruct (Hread a Ha) as [ta ->], (Hread b Hb) as [tb ->]. done. }
    unfold selected. destruct (String.eqb _ _); [done |].
    by apply StronglySorted_filter.
Qed.

(** When the host reads none of the stored dates, every comparison is
    [NaN] and the stored order of the collection is kept. *)
Lemma loadAdminOrders_unread_dates filterStatus um :
  (∀ o, o ∈ getAllOrders um -> getTime (Order.date o) = None) ->
  loadAdminOrders getTime filterStatus um
  = selected filterStatus (getAllOrders um).
Proof.
  intros Hnan. rewrite loadAdminOrders_selects. f_equal.
  apply sort_all_NaN. intros a b Ha Hb. unfold byDate.
  by rewrite (Hnan b Hb).
Qed.

End AdminListing.

(** C5. The listing is sorted by what the host's [Date] reads from the
    stored date text, not by creation time.  For every host that reads
    none of the stored date texts (the checkout stores them in the
    [ru-RU] form "13.01.2026, 10:00:00"), the listing is the selection
    of the stored collection in stored order, which is oldest first. *)
Theorem loadAdminOrders_keeps_stored_order_of_unread_dates
    (getTime : string -> option Z) (filterStatus : string) (um : UserManager.t) :
  (∀ o, o ∈ UserManager.getAllOrders um -> getTime (Order.date o) = None) ->
  OrderManager.loadAdminOrders getTime filterStatus um
  = OrderManager.selected filterStatus (UserManager.getAllOrders um).
Proof. apply loadAdminOrders_unread_dates. Qed.

Lemma loadAdminOrders_keeps_stored_order_of_unread_dates_witness :
  OrderManager.loadAdminOrders (fun _ => None) "all" kitchen = [order101; order102].
Proof.
  apply (loadAdminOrders_keeps_stored_order_of_unread_dates (fun _ => None) "all" kitchen).
  reflexivity.
Defined.

(* ================================================================= *)
(** ** Catalog store *)

Section Catalog.
Import MenuManager.

Implicit Types (m : MenuManager.t) (h : gmap nat MenuItem.t) (l : list nat).

Lemma alloc_fresh h : alloc h ∉ dom h.
Proof. unfold alloc. apply is_fresh. Qed.

(** Allocating a new object leaves the objects already referred to as
    they are. *)
Lemma snapshot_insert_alloc h l v :
  (∀ r, r ∈ l -> r ∈ dom h) ->
  snapshot (<[alloc h := v]> h) l = snapshot h l.
Proof.
  intros Hl. apply list_fmap_ext. intros i r Hr. unfold deref.
  apply lookup_total_insert_ne. intros E.
  apply (alloc_fresh h). rewrite E. apply Hl.
  apply list_elem_of_lookup. eauto.
Qed.

Lemma list_elem_of_insert_inv (l : list nat) i x y :
  y ∈ <[i:=x]> l -> y = x ∨ y ∈ l.
Proof.
  revert i. induction l as [|z rest IH]; intros [|i]; simpl;
    try (intros H; by inversion H).
  - intros [->|H]%elem_of_cons; [by left | right; by right].
  - intros [->|H]%elem_of_cons; [right; left |].
    destruct (IH _ H) as [->|?]; [by left | right; by right].
Qed.

(** *** References stay allocated *)

Lemma wf_empty : wf empty.
Proof. split; intros r Hr; inversion Hr. Qed.

Lemma wf_addMenuItem item m : wf m -> wf (addMenuItem item m).
Proof.
  intros [Hi Ha]. split; simpl; intros r [Hr| ->%list_elem_of_singleton]%elem_of_app;
    rewrite dom_insert_L; set_solver.
Qed.

Lemma wf_updateMenuItem itemId updates m : wf m -> wf (updateMenuItem itemId updates m).
Proof.
  intros Hm. unfold updateMenuItem.
  set (m1 := if negb (findIndex (items m) _ =? -1) then _ else m).
  assert (H1 : wf m1).
  { subst m1. destruct (negb _); [|done]. destruct Hm as [Hi Ha].
    split; simpl; intros r Hr; rewrite dom_insert_L.
    - apply list_elem_of_insert_inv in Hr as [->|Hr]; set_solver.
    - set_solver. }
  clearbody m1.
  destruct (negb (findIndex (allDishes m1) _ =? -1)); [|done].
  destruct H1 as [Hi Ha].
  split; simpl; intros r Hr; rewrite dom_insert_L.
  - set_solver.
  - apply list_elem_of_insert_inv in Hr as [->|Hr]; set_solver.
Qed.

Lemma wf_addExistingDish dishId m : wf m -> wf (addExistingDish dishId m).
Proof.
  intros Hm. unfold addExistingDish.
  destruct (findItem _ _); [|done]. destruct (negb _); [|done].
  destruct Hm as [Hi Ha].
  split; simpl; intros r Hr; rewrite dom_insert_L.
  - apply elem_of_app in Hr as [Hr| ->%list_elem_of_singleton]; set_solver.
  - set_solver.
Qed.

Lemma wf_removeMenuItem itemId m : wf m -> wf (removeMenuItem itemId m).
Proof.
  intros Hm. unfold removeMenuItem. destruct (negb _); [|done].
  destruct Hm as [Hi Ha].
  split; simpl; intros r Hr; rewrite dom_alter_L; [|by apply Ha].
  by apply list_elem_of_delete_inv, Hi in Hr.
Qed.

Lemma wf_deletePermanent itemId m : wf m -> wf (deletePermanent itemId m).
Proof.
  intros [Hi Ha]. unfold deletePermanent.
  split; simpl; intros r Hr.
  - apply Hi. destruct (negb (findIndex (items m) _ =? -1)); [|done].
    by apply list_elem_of_delete_inv in Hr.
  - apply Ha. destruct (negb (findIndex (allDishes m) _ =? -1)); [|done].
    by apply list_elem_of_delete_inv in Hr.
Qed.

Lemma wf_step m o : wf m -> wf (step m o).
Proof.
  destruct o; simpl;
    auto using wf_addMenuItem, wf_updateMenuItem, wf_addExistingDish,
               wf_removeMenuItem, wf_deletePermanent.
Qed.

(** Every store reached from the empty one is well formed. *)
Lemma wf_run ops m : wf m -> wf (run ops m).
Proof.
  unfold run. revert m.
  induction ops as [|o ops IH]; simpl; intros m Hm; [done |].
  by apply IH, wf_step.
Qed.

End Catalog.

Section DishIds.
Import MenuManager.

Implicit Types (m : MenuManager.t).

Lemma foldr_max_ge (a : Z) (l : list Z) :
  a <= foldr Z.max a l ∧ ∀ x, x ∈ l -> x <= foldr Z.max a l.
Proof.
  induction l as [|y rest [IHa IHl]]; simpl.
  - split; [lia | intros x Hx; inversion Hx].
  - split; [lia |]. intros x [->|Hx]%elem_of_cons; [lia |].
    specialize (IHl x Hx). lia.
Qed.

Lemma foldr_max_init (a : Z) (l : list Z) :
  0 <= a -> foldr Z.max a l = Z.max a (foldr Z.max 0 l).
Proof. intros Ha. induction l as [|y rest IH]; simpl; lia. Qed.



Lemma generateId_positive m : 0 < generateId m.
Proof.
  unfold generateId.
  pose proof (proj1 (foldr_max_ge 0 (MenuItem.id <$> getAllDishes m))). lia.
Qed.

(** [addMenuItem] appends one and the same new object to both lists and
    saves both. *)
Lemma addMenuItem_lists item m :
  items (addMenuItem item m) = items m ++ [alloc (heap m)] ∧
  allDishes (addMenuItem item m) = allDishes m ++ [alloc (heap m)] ∧
  deref (heap (addMenuItem item m)) (alloc (heap m)) = newItem item m.
Proof.
  repeat split. simpl. unfold deref. apply lookup_total_insert_eq.
Qed.

Lemma addMenuItem_views item m :
  wf m ->
  getMenuItems (addMenuItem item m) = getMenuItems m ++ [newItem item m] ∧
  getAllDishes (addMenuItem item m) = getAllDishes m ++ [newItem item m].
Proof.
  intros [Hi Ha]. unfold getMenuItems, getAllDishes. simpl.
  unfold snapshot at 1 3. rewrite !fmap_app. simpl.
  fold (snapshot (<[alloc (heap m) := newItem item m]> (heap m)) (items m)).
  fold (snapshot (<[alloc (heap m) := newItem item m]> (heap m)) (allDishes m)).
  rewrite !snapshot_insert_alloc by done.
  unfold deref. by rewrite lookup_total_insert_eq.
Qed.



End DishIds.

Section ReachableStores.
Import MenuManager.

Implicit Types (m : MenuManager.t) (h : gmap nat MenuItem.t).

Lemma id_deref_alter h r a v :
  MenuItem.id (deref (alter (MenuItem.set_isActive v) r h) a)
  = MenuItem.id (deref h a).
Proof.
  unfold deref. rewrite lookup_total_alter.
  destruct (decide (r = a)) as [->|]; [|done].
  rewrite lookup_total_alt. by destruct (h !! a).
Qed.

Lemma positiveIds_addMenuItem item m :
  wf m -> positiveIds m -> positiveIds (addMenuItem item m).
Proof.
  intros Hm Hpos d. rewrite (proj2 (addMenuItem_views item m Hm)).
  intros [Hd| ->%list_elem_of_singleton]%elem_of_app; [by apply Hpos |].
  apply generateId_positive.
Qed.

Lemma positiveIds_removeMenuItem itemId m :
  positiveIds m -> positiveIds (removeMenuItem itemId m).
Proof.
  intros Hpos. unfold removeMenuItem. destruct (negb _); [|done].
  intros d (a & -> & Ha)%list_elem_of_fmap. simpl in *.
  rewrite id_deref_alter. apply Hpos. by apply list_elem_of_fmap_2.
Qed.

Lemma positiveIds_addExistingDish dishId m :
  wf m -> positiveIds m -> positiveIds (addExistingDish dishId m).
Proof.
  intros [Hi Ha] Hpos. unfold addExistingDish.
  destruct (findItem _ _); [|done]. destruct (negb _); [|done].
  intros d. unfold getAllDishes. simpl.
  rewrite snapshot_insert_alloc by done. apply Hpos.
Qed.

Lemma positiveIds_deletePermanent itemId m :
  positiveIds m -> positiveIds (deletePermanent itemId m).
Proof.
  intros Hpos d (a & -> & Ha)%list_elem_of_fmap. simpl in *.
  apply Hpos. apply list_elem_of_fmap_2.
  destruct (negb (findIndex (allDishes m) _ =? -1)); [|done].
  by apply list_elem_of_delete_inv in Ha.
Qed.

Lemma findIndex_total_lookup (l : list nat) (predicate : nat -> bool) :
  findIndex l predicate ≠ -1 ->
  l !!! Z.to_nat (findIndex l predicate) ∈ l.
Proof.
  intros H. apply list_elem_of_lookup_total_2.
  pose proof (findIndex_range l predicate). lia.
Qed.

Lemma positiveIds_updateMenuItem itemId updates m :
  wf m -> positiveIds m -> Updates.id updates = None ->
  positiveIds (updateMenuItem itemId updates m).
Proof.
  intros Hm Hpos Hid. unfold updateMenuItem.
  set (m1 := if negb (findIndex (items m) _ =? -1) then _ else m).
  assert (H1 : wf m1 ∧ positiveIds m1).
  { subst m1. destruct (negb _); [|done]. destruct Hm as [Hi Ha]. split.
    - split; simpl; intros r Hr; rewrite dom_insert_L.
      + apply list_elem_of_insert_inv in Hr as [->|Hr]; set_solver.
      + set_solver.
    - intros d. unfold getAllDishes. simpl.
      rewrite snapshot_insert_alloc by done. apply Hpos. }
  clearbody m1. destruct H1 as [[Hi Ha] Hpos1].
  destruct (Z.eqb_spec (findIndex (allDishes m1) (hasId (heap m1) itemId)) (-1))
    as [E|E]; simpl; [exact Hpos1 |].
  intros d (a & -> & Hin)%list_elem_of_fmap. simpl in *.
  apply list_elem_of_insert_inv in Hin as [->|Hin].
  - unfold deref at 1. rewrite lookup_total_insert_eq.
    unfold merge. simpl. rewrite Hid. simpl.
    apply Hpos1. apply (list_elem_of_fmap_2 (deref (heap m1))).
    by apply findIndex_total_lookup.
  - unfold deref at 1. rewrite lookup_total_insert_ne.
    + apply Hpos1. by apply (list_elem_of_fmap_2 (deref (heap m1))).
    + intros Heq. apply (alloc_fresh (heap m1)). rewrite Heq. by apply Ha.
Qed.

(** Every store the admin pages can reach from the empty one is well
    formed and has positive archive ids. *)
Lemma reachable_stores ops :
  Forall fromForms ops ->
  wf (run ops empty) ∧ positiveIds (run ops empty).
Proof.
  unfold run.
  assert (H0 : wf empty ∧ positiveIds empty).
  { split; [apply wf_empty |]. intros d Hd. inversion Hd. }
  revert H0. generalize empty.
  induction ops as [|o ops IH]; simpl; intros m Hm Hops; [done |].
  apply Forall_cons in Hops as [Ho Hops]. apply IH; [|done].
  destruct Hm as [Hm Hpos]. split; [by apply wf_step |].
  destruct o; simpl in *;
    auto using positiveIds_addMenuItem, positiveIds_updateMenuItem,
               positiveIds_addExistingDish, positiveIds_removeMenuItem,
               positiveIds_deletePermanent.
Qed.

End ReachableStores.

Lemma oneDish_wf : MenuManager.wf oneDish.
Proof. apply wf_addMenuItem, wf_empty. Qed.

Lemma twoDishes_wf : MenuManager.wf twoDishes.
Proof. apply wf_addMenuItem, oneDish_wf. Qed.

Example twoDishes_archive :
  MenuManager.getAllDishes twoDishes
  = [MenuItem.mk 1 "Борщ" 150 "Суп" "Первые блюда" "borscht.png" (Some false) (Some true);
     MenuItem.mk 2 "Чай" 80 "Напиток" "Напитки" "tea.png" (Some true) (Some true)].
Proof. vm_compute. reflexivity. Qed.



(* ================================================================= *)
(** ** Soft removal and the archive *)

Section SoftRemove.
Import MenuManager.

Implicit Types (m : MenuManager.t).

Lemma hasId_before m itemId (before : list nat) :
  (∀ x, x ∈ before -> MenuItem.id (deref (heap m) x) ≠ itemId) ->
  ∀ y, y ∈ before -> hasId (heap m) itemId y = false.
Proof. intros H y Hy. unfold hasId. specialize (H y Hy). lia. Qed.

(** What [removeMenuItem] does when the id is in the active list: the
    first entry with the id is the object [r]; its flag is written, the
    entry is spliced out, and the archive array is not touched. *)
Lemma removeMenuItem_effect m itemId before r after :
  items m = before ++ r :: after ->
  MenuItem.id (deref (heap m) r) = itemId ->
  (∀ x, x ∈ before -> MenuItem.id (deref (heap m) x) ≠ itemId) ->
  items (removeMenuItem itemId m) = before ++ after ∧
  allDishes (removeMenuItem itemId m) = allDishes m ∧
  heap (removeMenuItem itemId m)
  = alter (MenuItem.set_isActive false) r (heap m) ∧
  stored_menuItems (removeMenuItem itemId m)
  = Some (getMenuItems (removeMenuItem itemId m)) ∧
  stored_allDishes (removeMenuItem itemId m) = stored_allDishes m.
Proof.
  intros Hitems Hr Hb. unfold removeMenuItem. rewrite Hitems.
  rewrite findIndex_split;
    [| unfold hasId; lia | by apply hasId_before].
  destruct (Z.eqb_spec (Z.of_nat (length before)) (-1)); [lia |]. simpl.
  rewrite Nat2Z.id, delete_middle, list_lookup_total_middle by done.
  done.
Qed.

(** Through any reference, the object seen after the removal is the one
    seen before, with the flag cleared when the reference is [r]. *)
Lemma removeMenuItem_deref m itemId before r after a :
  wf m ->
  items m = before ++ r :: after ->
  MenuItem.id (deref (heap m) r) = itemId ->
  (∀ x, x ∈ before -> MenuItem.id (deref (heap m) x) ≠ itemId) ->
  deref (heap (removeMenuItem itemId m)) a
  = if decide (a = r) then MenuItem.set_isActive false (deref (heap m) a)
    else deref (heap m) a.
Proof.
  intros [Hi _] Hitems Hr Hb.
  destruct (removeMenuItem_effect m itemId before r after Hitems Hr Hb)
    as (_ & _ & -> & _).
  unfold deref. destruct (decide (a = r)) as [->|Hne].
  - rewrite lookup_total_alter_eq.
    assert (Hdom : r ∈ dom (heap m)).
    { apply Hi. rewrite Hitems. apply elem_of_app. right. left. }
    apply elem_of_dom in Hdom as [v Hv].
    by rewrite (lookup_total_correct _ _ _ Hv), Hv.
  - by rewrite lookup_total_alter_ne.
Qed.

Lemma sameButActive_refl (x : MenuItem.t) : MenuItem.sameButActive x x.
Proof. by repeat split. Qed.

Lemma sameButActive_set_isActive v (x : MenuItem.t) :
  MenuItem.sameButActive (MenuItem.set_isActive v x) x.
Proof. by repeat split. Qed.

Lemma Forall2_fmap_same {A B : Type} (R : B -> B -> Prop) (f g : A -> B) (l : list A) :
  (∀ x, x ∈ l -> R (f x) (g x)) -> Forall2 R (f <$> l) (g <$> l).
Proof.
  induction l as [|x rest IH]; intros H; simpl; constructor.
  - apply H. left.
  - apply IH. intros y Hy. apply H. by right.
Qed.

(** The flag of an archive entry after the removal: cleared for the
    entry that is the removed object itself, kept for every other. *)
Lemma removeMenuItem_archive_flag m itemId before r after a :
  wf m ->
  items m = before ++ r :: after ->
  MenuItem.id (deref (heap m) r) = itemId ->
  (∀ x, x ∈ before -> MenuItem.id (deref (heap m) x) ≠ itemId) ->
  MenuItem.isActive (deref (heap (removeMenuItem itemId m)) a)
  = if decide (a = r) then Some false
    else MenuItem.isActive (deref (heap m) a).
Proof.
  intros Hm Hitems Hr Hb.
  rewrite (removeMenuItem_deref m itemId before r after a) by done.
  by destruct (decide (a = r)).
Qed.

End SoftRemove.

(** After an edit the two lists hold separate copies of the dish, and the
    removal then leaves the archive entry's flag as it was. *)
Example removal_after_edit_keeps_archive_flag :
  let rename := Updates.mk None (Some "Борщ с пампушками") None None None None None None in
  MenuItem.isActive <$>
    MenuManager.getAllDishes
      (MenuManager.removeMenuItem 1 (MenuManager.updateMenuItem 1 rename oneDish))
  = [Some true].
Proof. vm_compute. reflexivity. Qed.


(* ================================================================= *)
(** ** Cart ledger: totals, persistence and the quantity buttons *)

Section CartLedger.
Import CartManager.

Implicit Types (c : CartManager.t) (l : list CartItem.t).

Lemma foldl_total_shift (a : Z) l :
  foldl (fun total item => total + CartItem.price item * CartItem.quantity item) a l
  = a + foldl (fun total item => total + CartItem.price item * CartItem.quantity item) 0 l.
Proof.
  revert a. induction l as [|x rest IH]; intros a; simpl; [lia |].
  rewrite (IH (a + _)), (IH (0 + _)). lia.
Qed.

Lemma lineSum_app l k :
  getTotal (mk (l ++ k) None) = getTotal (mk l None) + getTotal (mk k None).
Proof.
  unfold getTotal. simpl. rewrite foldl_app. apply foldl_total_shift.
Qed.

Lemma getTotal_lines c : getTotal c = getTotal (mk (items c) None).
Proof. reflexivity. Qed.

Lemma Forall_writeFound (P : CartItem.t -> Prop) l
    (predicate : CartItem.t -> bool) (f : CartItem.t -> CartItem.t) :
  (∀ x, P x -> P (f x)) -> Forall P l -> Forall P (writeFound l predicate f).
Proof.
  intros Hf. induction 1 as [|x rest Hx Hrest IH]; simpl; [constructor |].
  destruct (predicate x); constructor; auto.
Qed.

Lemma Forall_filter_kept (P : CartItem.t -> Prop) (Q : CartItem.t -> Prop)
    `{Qdec : !∀ x, Decision (Q x)} l :
  Forall P l -> Forall P (filter Q l).
Proof.
  rewrite !Forall_forall. intros H x [_ Hx]%list_elem_of_filter. by apply H.
Qed.

Lemma step_quantities c o :
  Forall (fun line => 1 <= CartItem.quantity line) (items c) ->
  Forall (fun line => 1 <= CartItem.quantity line) (items (step c o)).
Proof.
  intros H. destruct o as [item|itemId|itemId n]; simpl.
  - unfold addItem. destruct (findItem _ _); simpl.
    + apply Forall_writeFound; [|done]. intros x Hx. simpl. lia.
    + apply Forall_app. split; [done |]. repeat constructor. simpl. lia.
  - by apply Forall_filter_kept.
  - unfold updateQuantity. destruct (findItem _ _); [|done].
    destruct (Z.leb_spec n 0); simpl.
    + by apply Forall_filter_kept.
    + apply Forall_writeFound; [|done]. intros x _. simpl. lia.
Qed.

Lemma step_reload c o :
  items (new (stored c)) = items c ->
  items (new (stored (step c o))) = items (step c o).
Proof.
  intros H. destruct o as [item|itemId|itemId n]; simpl; try reflexivity.
  unfold updateQuantity. destruct (findItem _ _); [reflexivity | done].
Qed.

End CartLedger.

(** X1. [addItem] raises the cart total by one unit price: the price
    stored in the line when the dish already has a line, otherwise the
    price of the dish passed in. *)
Theorem addItem_raises_total_by_one_price (item : MenuItem.t) (c : CartManager.t) :
  CartManager.getTotal (CartManager.addItem item c)
  = CartManager.getTotal c
    + match findItem (CartManager.items c)
              (fun cartItem => CartItem.id cartItem =? MenuItem.id item) with
      | Some line => CartItem.price line
      | None => MenuItem.price item
      end.
Proof.
  rewrite (getTotal_lines c), (getTotal_lines (CartManager.addItem item c)).
  unfold CartManager.addItem.
  destruct (findItem _ _) as [line|] eqn:E; simpl.
  - apply findItem_Some in E as (before & after & Hc & Hline & Hb).
    rewrite Hc, (writeFound_split before line after) by done.
    change (line :: after) with ([line] ++ after).
    change (?x :: after) with ([x] ++ after).
    rewrite !lineSum_app. unfold CartManager.getTotal at 2 5. simpl.
    unfold CartItem.price. simpl. lia.
  - rewrite lineSum_app. unfold CartManager.getTotal at 2. simpl.
    unfold CartItem.price. simpl. lia.
Qed.

(** X2. Whatever the stored cart and whatever calls follow, reloading the
    page gives back the line list held in memory: every change of the
    lines is saved before the call returns. *)
Theorem cart_survives_reload (saved : option (list CartItem.t))
    (ops : list CartManager.op) :
  CartManager.items
    (CartManager.new
       (CartManager.stored (CartManager.run ops (CartManager.new saved))))
  = CartManager.items (CartManager.run ops (CartManager.new saved)).
Proof.
  unfold CartManager.run.
  assert (H : CartManager.items (CartManager.new
                (CartManager.stored (CartManager.new saved)))
              = CartManager.items (CartManager.new saved)).
  { by destruct saved. }
  revert H. generalize (CartManager.new saved).
  induction ops as [|o ops IH]; simpl; intros c H; [done |].
  apply IH. by apply step_reload.
Qed.

(** X3. Starting from an empty cart, after any sequence of [addItem],
    [removeItem] and [updateQuantity] calls every line has a quantity of
    at least one. *)
Theorem cart_quantities_stay_positive (ops : list CartManager.op) :
  Forall (fun line => 1 <= CartItem.quantity line)
    (CartManager.items (CartManager.run ops CartManager.empty)).
Proof.
  unfold CartManager.run.
  assert (H : Forall (fun line => 1 <= CartItem.quantity line)
                (CartManager.items CartManager.empty)) by constructor.
  revert H. generalize CartManager.empty.
  induction ops as [|o ops IH]; simpl; intros c H; [done |].
  apply IH. by apply step_quantities.
Qed.

(** X4. The quantity buttons: on a line with quantity at least one, [+]
    followed by [-] gives back the line list as it was, and [-] on a line
    with quantity exactly one deletes every line of that dish. *)
Theorem quantity_buttons_step_and_undo (c : CartManager.t) (itemId : Z)
    (line : CartItem.t) :
  findItem (CartManager.items c) (fun item => CartItem.id item =? itemId)
  = Some line ->
  (1 <= CartItem.quantity line ->
   CartManager.items
     (CartManager.quantityClick itemId false
        (CartManager.quantityClick itemId true c))
   = CartManager.items c) ∧
  (CartItem.quantity line = 1 ->
   CartManager.items (CartManager.quantityClick itemId false c)
   = filter (fun item => CartItem.id item ≠ itemId) (CartManager.items c)).
Proof.
  intros E. split.
  - intros Hq.
    pose proof E as (before & after & Hc & Hline & Hb)%findItem_Some.
    assert (Hplus : CartManager.items (CartManager.quantityClick itemId true c)
                    = before ++ CartItem.mk (CartItem.dish line)
                                  (CartItem.quantity line + 1) :: after).
    { unfold CartManager.quantityClick, CartManager.getItems. rewrite E.
      unfold CartManager.updateQuantity. rewrite E.
      destruct (Z.leb_spec (CartItem.quantity line + 1) 0); [lia |]. simpl.
      rewrite Hc, (writeFound_split before line after) by done. reflexivity. }
    set (c1 := CartManager.quantityClick itemId true c) in *.
    assert (E1 : findItem (CartManager.items c1)
                   (fun item => CartItem.id item =? itemId)
                 = Some (CartItem.mk (CartItem.dish line)
                           (CartItem.quantity line + 1))).
    { rewrite Hplus. apply findItem_Some. exists before, after.
      repeat split; done. }
    unfold CartManager.quantityClick, CartManager.getItems. rewrite E1.
    unfold CartManager.updateQuantity. rewrite E1. simpl.
    replace (CartItem.quantity line + 1 - 1) with (CartItem.quantity line) by lia.
    destruct (Z.leb_spec (CartItem.quantity line) 0); [lia |]. simpl.
    rewrite Hplus, Hc.
    rewrite (writeFound_split before _ after) by done.
    by destruct line.
  - intros Hq. unfold CartManager.quantityClick, CartManager.getItems.
    rewrite E. unfold CartManager.updateQuantity. rewrite E, Hq. reflexivity.
Qed.

Lemma quantity_buttons_step_and_undo_witness :
  CartManager.items
    (CartManager.quantityClick 1 false (CartManager.quantityClick 1 true lunchCart))
  = CartManager.items lunchCart ∧
  CartManager.items (CartManager.quantityClick 2 false lunchCart)
  = [CartItem.mk borscht 2].
Proof.
  split.
  - apply (proj1 (quantity_buttons_step_and_undo lunchCart 1 (CartItem.mk borscht 2) eq_refl)).
    simpl. lia.
  - apply (proj2 (quantity_buttons_step_and_undo lunchCart 2 (CartItem.mk tea 1) eq_refl)).
    reflexivity.
Defined.

(* ================================================================= *)
(** ** Identity store: the seeded roster and the stored session *)

Section Session.
Import UserManager.

Lemma users_new a b c : users (new a b c) = [adminUser; testStudent].
Proof. unfold new, loadCurrentUser. simpl. by destruct a. Qed.

Lemma currentUser_new a b c : currentUser (new a b c) = a.
Proof. unfold new, loadCurrentUser. simpl. by destruct a. Qed.

Lemma orders_new a b c : orders (new a b c) = [].
Proof. unfold new, loadCurrentUser. simpl. by destruct a. Qed.

End Session.

(** X5. A freshly constructed user store, whatever roster and session were
    stored, accepts a login exactly for the two seeded emails together
    with the constant password. *)
Theorem login_accepts_exactly_the_seeded_users
    (a : option User.t) (b : option (list User.t)) (c : option (list Order.t))
    (email password : string) :
  (UserManager.login email password (UserManager.new a b c)).1 = true <->
  (email = "admin@sibsiu.ru" ∨ email = "student@sibsiu.ru") ∧
  password = "password".
Proof.
  unfold UserManager.login. rewrite users_new. cbn [findItem].
  change (User.email UserManager.adminUser) with "admin@sibsiu.ru".
  change (User.email UserManager.testStudent) with "student@sibsiu.ru".
  destruct (String.eqb_spec "admin@sibsiu.ru" email) as [Ea|Ea];
    [|destruct (String.eqb_spec "student@sibsiu.ru" email) as [Es|Es]];
    destruct (String.eqb_spec password "password") as [Ep|Ep];
    cbn [fst]; split; intros H; try discriminate H; auto.
  - destruct H as [_ H]. congruence.
  - destruct H as [_ H]. congruence.
  - destruct H as [[H|H] _]; congruence.
  - destruct H as [[H|H] _]; congruence.
Qed.

(** X6. After a successful login a page reload finds the same user signed
    in: the session is stored by [login] and read back by the
    constructor. *)
Theorem session_survives_reload (um : UserManager.t) (email : string) (user : User.t) :
  findItem (UserManager.users um) (fun u => String.eqb (User.email u) email)
  = Some user ->
  UserManager.getCurrentUser
    (UserManager.reload (UserManager.login email "password" um).2)
  = Some user.
Proof.
  intros H. unfold UserManager.reload, UserManager.getCurrentUser.
  rewrite currentUser_new. unfold UserManager.login. rewrite H. reflexivity.
Qed.

Lemma session_survives_reload_witness :
  UserManager.getCurrentUser
    (UserManager.reload
       (UserManager.login "student@sibsiu.ru" "password" freshUsers).2)
  = Some UserManager.testStudent.
Proof.
  apply (session_survives_reload freshUsers "student@sibsiu.ru").
  reflexivity.
Defined.

(** X7. [logout] signs out whoever is signed in and removes the stored
    session, so a reload after it starts signed out; the roster and the
    orders are not touched. *)
Theorem logout_clears_session_for_good (um : UserManager.t) :
  UserManager.getCurrentUser (UserManager.logout um) = None ∧
  UserManager.getCurrentUser (UserManager.reload (UserManager.logout um)) = None ∧
  UserManager.users (UserManager.logout um) = UserManager.users um ∧
  UserManager.getAllOrders (UserManager.logout um) = UserManager.getAllOrders um.
Proof.
  split; [reflexivity |]. split; [|split; reflexivity].
  unfold UserManager.reload, UserManager.getCurrentUser.
  by rewrite currentUser_new.
Qed.

(* ================================================================= *)
(** ** Order ledger: what is stored *)

Section StoredOrders.
Import UserManager.

Lemma sameButStatusAndTime_refl (o : Order.t) : Order.sameButStatusAndTime o o.
Proof. by repeat split. Qed.

Lemma Forall2_same_refl (l : list Order.t) :
  Forall2 Order.sameButStatusAndTime l l.
Proof. induction l; constructor; auto using sameButStatusAndTime_refl. Qed.

Lemma findItem_orderId_dec (l : list Order.t) orderId :
  (∀ o, o ∈ l -> Order.id o ≠ orderId) ∨
  ∃ before o after,
    l = before ++ o :: after ∧ Order.id o = orderId ∧
    ∀ y, y ∈ before -> Order.id y ≠ orderId.
Proof.
  destruct (findItem l (fun order => Order.id order =? orderId)) as [o|] eqn:E.
  - right. apply findItem_Some in E as (before & after & -> & Ho & Hb).
    exists before, o, after. repeat split; [lia |].
    intros y Hy. specialize (Hb y Hy). lia.
  - left. by apply findItem_orderId_None.
Qed.

End StoredOrders.

(** X8. The first order placed after a page reload replaces the stored
    collection: what is saved is the list held in memory, which starts
    empty, so the orders stored before the reload are no longer in the
    store. *)
Theorem addOrder_after_reload_drops_stored_orders (um : UserManager.t) (o : Order.t) :
  UserManager.getAllOrders (UserManager.addOrder o (UserManager.reload um)) = [o].
Proof.
  unfold UserManager.getAllOrders, UserManager.addOrder, UserManager.reload.
  simpl. by rewrite orders_new.
Qed.

(** X9. A status change is written to the store only, not to the list in
    memory, so the next [addOrder] saves the collection as if the status
    change had not happened. *)
Theorem addOrder_overwrites_status_changes (um : UserManager.t) (o : Order.t)
    (orderId : Z) (newStatus : OrderStatus) (estimatedTime : option string) :
  UserManager.getAllOrders
    (UserManager.addOrder o
       (UserManager.updateOrderStatus orderId newStatus estimatedTime um).2)
  = UserManager.getAllOrders (UserManager.addOrder o um).
Proof.
  unfold UserManager.updateOrderStatus.
  by destruct (negb _).
Qed.

(** X10. [updateOrderStatus] never adds, removes or reorders orders and
    never touches an order's id, user, lines, total, number or date; the
    orders with another id are kept as they are. *)
Theorem updateOrderStatus_keeps_the_collection
    (um : UserManager.t) (orderId : Z) (newStatus : OrderStatus)
    (estimatedTime : option string) :
  let after := UserManager.getAllOrders
                 (UserManager.updateOrderStatus orderId newStatus estimatedTime um).2 in
  Forall2 Order.sameButStatusAndTime after (UserManager.getAllOrders um) ∧
  filter (fun o => Order.id o ≠ orderId) after
  = filter (fun o => Order.id o ≠ orderId) (UserManager.getAllOrders um).
Proof.
  intros after. subst after.
  destruct (findItem_orderId_dec (UserManager.getAllOrders um) orderId)
    as [Hnone | (before & o & rest & Hall & Hid & Hb)].
  - rewrite updateOrderStatus_not_found by done. simpl.
    split; [apply Forall2_same_refl | done].
  - rewrite (updateOrderStatus_found um orderId newStatus estimatedTime before o rest)
      by done.
    unfold UserManager.getAllOrders at 1 3, UserManager.setItem_orders.
    cbn [snd UserManager.ls_orders]. rewrite Hall. split.
    + apply Forall2_app; [apply Forall2_same_refl |].
      constructor; [by repeat split | apply Forall2_same_refl].
    + rewrite !filter_app, !filter_cons. simpl.
      destruct (decide (Order.id o ≠ orderId)); [done |].
      by destruct (decide (Order.id (updated newStatus estimatedTime o) ≠ orderId)).
Qed.

(** X11. With a host that reads every stored date, the admin listing holds
    exactly the orders the filter selects, each once, ordered by the time
    read from the date, latest first. *)
Theorem admin_listing_descends_when_dates_are_read
    (getTime : string -> option Z) (filterStatus : string) (um : UserManager.t) :
  (∀ o, o ∈ UserManager.getAllOrders um -> is_Some (getTime (Order.date o))) ->
  OrderManager.loadAdminOrders getTime filterStatus um
    ≡ₚ OrderManager.selected filterStatus (UserManager.getAllOrders um) ∧
  StronglySorted
    (fun a b => OrderManager.timeOf getTime b <= OrderManager.timeOf getTime a)
    (OrderManager.loadAdminOrders getTime filterStatus um).
Proof. apply loadAdminOrders_read_dates. Qed.

Lemma admin_listing_descends_when_dates_are_read_witness :
  OrderManager.loadAdminOrders (fun text => Some (Z.of_nat (String.length text)))
    "pending" kitchen
  ≡ₚ OrderManager.selected "pending" (UserManager.getAllOrders kitchen).
Proof.
  refine (proj1 (admin_listing_descends_when_dates_are_read
                   (fun text => Some (Z.of_nat (String.length text)))
                   "pending" kitchen _)).
  intros o _. by eexists.
Defined.

(* ================================================================= *)
(** ** Checkout *)

(** X12. Checkout is refused, and neither the stored orders nor the cart
    change, when nobody is signed in, when the cart has no lines, when the
    pickup-time select is missing from the page, or when no pickup time
    is chosen. *)
Theorem processOrder_refusals_change_nothing
    (i : checkoutInput) (um : UserManager.t) (cart : CartManager.t) :
  UserManager.getCurrentUser um = None ∨
  CartManager.items cart = [] ∨
  orderTime i = None ∨
  orderTime i = Some "" ->
  (processOrder i um cart).1.2 = um ∧
  (processOrder i um cart).2 = cart ∧
  ∀ orderNumber, (processOrder i um cart).1.1 ≠ OrderPlaced orderNumber.
Proof.
  intros H. unfold processOrder, CartManager.getItems.
  destruct (UserManager.getCurrentUser um) as [user|]; [|by repeat split].
  destruct (CartManager.items cart) as [|line lines] eqn:Hitems;
    [by repeat split |]. simpl.
  destruct (orderTime i) as [selectedTime|]; [|by repeat split].
  destruct (String.eqb_spec selectedTime "") as [->|Hne]; simpl;
    [by repeat split |].
  destruct H as [H|[H|[H|H]]]; try discriminate H. congruence.
Qed.

Lemma processOrder_refusals_change_nothing_witness :
  (processOrder (mkCheckoutInput 1767225600123 1767225600124
                   "01.01.2026, 08:00:00" (Some "12:30"))
     freshUsers lunchCart).1.2 = freshUsers.
Proof.
  refine (proj1 (processOrder_refusals_change_nothing _ freshUsers lunchCart _)).
  left. reflexivity.
Defined.

(** X13. With a user signed in, a cart with lines and a pickup time chosen,
    checkout saves exactly one more order after the orders held in
    memory: it is pending, belongs to the signed-in user, carries the
    cart's lines and the cart's total and the chosen time; its number is
    "ORD" and the last six digits of the clock.  The cart is empty
    afterwards, in memory and in the store. *)
Theorem processOrder_places_one_pending_order
    (i : checkoutInput) (um : UserManager.t) (cart : CartManager.t)
    (user : User.t) (selectedTime : string) :
  UserManager.getCurrentUser um = Some user ->
  CartManager.items cart ≠ [] ->
  orderTime i = Some selectedTime ->
  selectedTime ≠ "" ->
  let orderNumber := String.append "ORD" (sliceLast 6 (pretty (nowForNumber i))) in
  let order :=
    Order.mk (nowForId i) (User.id user) (CartManager.items cart)
      (CartManager.getTotal cart) orderNumber (nowText i) pending
      (Some selectedTime) in
  let result := processOrder i um cart in
  result.1.1 = OrderPlaced orderNumber ∧
  UserManager.getAllOrders result.1.2 = UserManager.orders um ++ [order] ∧
  UserManager.getCurrentUser result.1.2 = Some user ∧
  CartManager.items result.2 = [] ∧
  CartManager.stored result.2 = Some [] ∧
  CartManager.getTotal result.2 = 0.
Proof.
  intros Huser Hcart Htime Hne. unfold processOrder, CartManager.getItems.
  rewrite Huser, Htime.
  destruct (CartManager.items cart) as [|line lines] eqn:Hitems; [done |].
  simpl. destruct (String.eqb_spec selectedTime ""); [done |]. simpl.
  repeat split. exact Huser.
Qed.

Lemma processOrder_places_one_pending_order_witness :
  let result :=
    processOrder (mkCheckoutInput 1767225600123 1767225600124
                    "01.01.2026, 08:00:00" (Some "12:30"))
      studentSignedIn lunchCart in
  result.1.1 = OrderPlaced "ORD600123" ∧
  UserManager.getAllOrders result.1.2
  = [Order.mk 1767225600124 2 [CartItem.mk borscht 2; CartItem.mk tea 1]
       380 "ORD600123" "01.01.2026, 08:00:00" pending (Some "12:30")] ∧
  CartManager.items result.2 = [].
Proof.
  destruct (processOrder_places_one_pending_order
              (mkCheckoutInput 1767225600123 1767225600124
                 "01.01.2026, 08:00:00" (Some "12:30"))
              studentSignedIn lunchCart UserManager.testStudent "12:30")
    as (Hout & Hall & _ & Hitems & _).
  - reflexivity.
  - discriminate.
  - reflexivity.
  - discriminate.
  - split; [exact Hout |]. split; [exact Hall | exact Hitems].
Defined.

(* ================================================================= *)
(** ** Catalog store: the two id lists *)

Section IdLists.
Import MenuManager.

Implicit Types (m : MenuManager.t) (h : gmap nat MenuItem.t) (l : list nat)
  (ids : list Z).

Lemma findItem_fmap {A B : Type} (f : A -> B) (l : list A) (predicate : B -> bool) :
  findItem (f <$> l) predicate = f <$> findItem l (fun x => predicate (f x)).
Proof.
  induction l as [|x rest IH]; simpl; [done |].
  by destruct (predicate (f x)).
Qed.

Lemma dropFirst_absent x ids : x ∉ ids -> dropFirst x ids = ids.
Proof.
  induction ids as [|y rest IH]; simpl; [done |].
  rewrite not_elem_of_cons. intros [Hy Hrest].
  destruct (Z.eqb_spec y x); [congruence |]. f_equal. by apply IH.
Qed.

Lemma dropFirst_elem_of x y ids : y ∈ dropFirst x ids -> y ∈ ids.
Proof.
  induction ids as [|z rest IH]; simpl; [done |].
  destruct (Z.eqb_spec z x); [by right |].
  intros [->|H]%elem_of_cons; [left | right; by apply IH].
Qed.

Lemma dropFirst_other x y ids : y ≠ x -> y ∈ ids -> y ∈ dropFirst x ids.
Proof.
  intros Hne. induction ids as [|z rest IH]; simpl; [done |].
  intros [->|H]%elem_of_cons.
  - destruct (Z.eqb_spec z x); [congruence | left].
  - destruct (Z.eqb_spec z x); [done | right; by apply IH].
Qed.

Lemma dropFirst_NoDup x ids :
  NoDup ids -> NoDup (dropFirst x ids) ∧ x ∉ dropFirst x ids.
Proof.
  induction ids as [|z rest IH]; simpl; [split; [constructor | by inversion 1] |].
  intros [Hz Hrest]%NoDup_cons. destruct (Z.eqb_spec z x) as [->|Hne].
  - done.
  - destruct (IH Hrest) as [Hnd Hx]. split.
    + apply NoDup_cons. split; [|done]. intros H.
      by apply Hz, (dropFirst_elem_of x).
    + apply not_elem_of_cons. split; [congruence | done].
Qed.

(** Splicing out the entry [findIndex] returns is dropping the first id. *)
Lemma ids_delete_found h l x :
  (MenuItem.id ∘ deref h) <$>
    (if negb (findIndex l (hasId h x) =? -1)
     then delete (Z.to_nat (findIndex l (hasId h x))) l else l)
  = dropFirst x ((MenuItem.id ∘ deref h) <$> l).
Proof.
  induction l as [|r rest IH]; [done |].
  pose proof (findIndex_range rest (hasId h x)) as Hr.
  rewrite fmap_cons. cbn [findIndex dropFirst].
  change ((MenuItem.id ∘ deref h) r =? x) with (hasId h x r).
  destruct (hasId h x r); [reflexivity |].
  destruct (Z.eqb_spec (findIndex rest (hasId h x)) (-1)) as [E|E].
  - rewrite E in IH. cbn in IH |- *. by rewrite <- IH.
  - destruct (Z.eqb_spec (findIndex rest (hasId h x) + 1) (-1)); [lia |].
    cbn [negb] in IH |- *.
    replace (Z.to_nat (findIndex rest (hasId h x) + 1))
      with (S (Z.to_nat (findIndex rest (hasId h x)))) by lia.
    cbn [delete list_delete]. rewrite fmap_cons. f_equal. exact IH.
Qed.

Lemma activeIds_alt m : activeIds m = (MenuItem.id ∘ deref (heap m)) <$> items m.
Proof. unfold activeIds, getMenuItems, snapshot. by rewrite <- list_fmap_compose. Qed.

Lemma archiveIds_alt m : archiveIds m = (MenuItem.id ∘ deref (heap m)) <$> allDishes m.
Proof. unfold archiveIds, getAllDishes, snapshot. by rewrite <- list_fmap_compose. Qed.

Lemma hasId_found h l x :
  is_Some (findItem l (hasId h x)) <-> x ∈ (MenuItem.id ∘ deref h) <$> l.
Proof.
  split.
  - intros [r (before & after & -> & Hr & _)%findItem_Some].
    apply list_elem_of_fmap. exists r. split.
    + unfold hasId in Hr. simpl. lia.
    + apply elem_of_app. right. left.
  - intros (r & Hx & Hr)%list_elem_of_fmap.
    destruct (findItem l (hasId h x)) eqn:E; [by eexists |].
    rewrite findItem_None in E. specialize (E r Hr).
    unfold hasId in E. simpl in Hx. lia.
Qed.

Lemma isDishActive_spec m x : isDishActive x m = true <-> x ∈ activeIds m.
Proof.
  rewrite activeIds_alt, <- hasId_found. unfold isDishActive.
  induction (items m) as [|r rest IH]; simpl.
  - split; [done | by intros [? ?]].
  - destruct (hasId (heap m) x r); simpl; [split; [by eexists | done] | exact IH].
Qed.

End IdLists.

Section MenuSteps.
Import MenuManager.

Implicit Types (m : MenuManager.t) (h : gmap nat MenuItem.t) (l : list nat).

Lemma writeFound_ids (vals : list MenuItem.t) (predicate : MenuItem.t -> bool)
    (f : MenuItem.t -> MenuItem.t) :
  (∀ d, MenuItem.id (f d) = MenuItem.id d) ->
  MenuItem.id <$> writeFound vals predicate f = MenuItem.id <$> vals.
Proof.
  intros Hf. induction vals as [|d rest IH]; cbn [writeFound]; [done |].
  destruct (predicate d); rewrite !fmap_cons; [by rewrite Hf | by rewrite IH].
Qed.

Lemma merge_id (d : MenuItem.t) (updates : Updates.t) :
  Updates.id updates = None -> MenuItem.id (merge d updates) = MenuItem.id d.
Proof. intros H. unfold merge. simpl. by rewrite H. Qed.

(** Replacing the found entry of an array of references by a new merged
    object, seen on the values. *)
Lemma replace_found_view h l x updates :
  (∀ r, r ∈ l -> r ∈ dom h) ->
  findIndex l (hasId h x) ≠ -1 ->
  snapshot
    (<[alloc h := merge (deref h (l !!! Z.to_nat (findIndex l (hasId h x)))) updates]> h)
    (<[Z.to_nat (findIndex l (hasId h x)) := alloc h]> l)
  = writeFound (snapshot h l) (fun d => MenuItem.id d =? x)
      (fun d => merge d updates).
Proof.
  intros Hl Hfound.
  destruct (findItem l (hasId h x)) as [r|] eqn:E;
    [|by apply findIndex_None in E].
  apply findItem_Some in E as (before & after & -> & Hr & Hb).
  rewrite findIndex_split by done. rewrite Nat2Z.id.
  rewrite list_lookup_total_middle by done.
  replace (<[length before := alloc h]> (before ++ r :: after))
    with (before ++ alloc h :: after)
    by (rewrite <- (Nat.add_0_r (length before)) at 1; by rewrite insert_app_r).
  unfold snapshot. rewrite !fmap_app, !fmap_cons.
  fold (snapshot (<[alloc h := merge (deref h r) updates]> h) before).
  fold (snapshot (<[alloc h := merge (deref h r) updates]> h) after).
  rewrite !snapshot_insert_alloc
    by (intros y Hy; apply Hl; rewrite elem_of_app, elem_of_cons; tauto).
  unfold deref at 1. rewrite lookup_total_insert_eq.
  symmetry. apply (writeFound_split (snapshot h before) (deref h r)).
  - exact Hr.
  - intros d (y & -> & Hy)%list_elem_of_fmap. by apply Hb.
Qed.

Lemma not_found_view h l x :
  findIndex l (hasId h x) = -1 ->
  findItem (snapshot h l) (fun d => MenuItem.id d =? x) = None.
Proof.
  intros E%findIndex_None. unfold snapshot. rewrite findItem_fmap.
  unfold hasId in E. by rewrite E.
Qed.

(** [updateMenuItem] on the two views: in each list the first dish with
    the id, if any, is replaced by its merge with the updates. *)
Lemma updateMenuItem_views itemId updates m :
  wf m ->
  getMenuItems (updateMenuItem itemId updates m)
  = writeFound (getMenuItems m) (fun d => MenuItem.id d =? itemId)
      (fun d => merge d updates) ∧
  getAllDishes (updateMenuItem itemId updates m)
  = writeFound (getAllDishes m) (fun d => MenuItem.id d =? itemId)
      (fun d => merge d updates).
Proof.
  intros [Hi Ha]. unfold updateMenuItem.
  set (m1 := if negb (findIndex (items m) _ =? -1) then _ else m).
  assert (H1 : wf m1 ∧
               getMenuItems m1
               = writeFound (getMenuItems m) (fun d => MenuItem.id d =? itemId)
                   (fun d => merge d updates) ∧
               getAllDishes m1 = getAllDishes m).
  { subst m1.
    destruct (Z.eqb_spec (findIndex (items m) (hasId (heap m) itemId)) (-1))
      as [E|E]; simpl.
    - split; [done |]. split; [|done].
      symmetry. by apply writeFound_absent, not_found_view.
    - split; [|split].
      + split; simpl; intros r Hr; rewrite dom_insert_L.
        * apply list_elem_of_insert_inv in Hr as [->|Hr]; set_solver.
        * set_solver.
      + unfold getMenuItems. simpl. by apply replace_found_view.
      + unfold getAllDishes. simpl. by apply snapshot_insert_alloc. }
  clearbody m1. destruct H1 as ([Hi1 Ha1] & Hv1 & Hv2).
  destruct (Z.eqb_spec (findIndex (allDishes m1) (hasId (heap m1) itemId)) (-1))
    as [E|E]; simpl.
  - split; [exact Hv1 |].
    change (getAllDishes m1 = writeFound (getAllDishes m)
              (fun d => MenuItem.id d =? itemId) (fun d => merge d updates)).
    rewrite <- Hv2. symmetry. by apply writeFound_absent, not_found_view.
  - split.
    + unfold getMenuItems. simpl. rewrite snapshot_insert_alloc by done.
      exact Hv1.
    + unfold getAllDishes in *. simpl. rewrite replace_found_view by done.
      by rewrite Hv2.
Qed.

End MenuSteps.

Section IdMachine.
Import MenuManager.

Implicit Types (m : MenuManager.t) (s : list Z * list Z).

Lemma ids_removeMenuItem x m :
  activeIds (removeMenuItem x m) = dropFirst x (activeIds m) ∧
  archiveIds (removeMenuItem x m) = archiveIds m.
Proof.
  rewrite !activeIds_alt, !archiveIds_alt, <- ids_delete_found.
  unfold removeMenuItem.
  destruct (negb (findIndex (items m) (hasId (heap m) x) =? -1)); [|done].
  simpl. split; apply list_fmap_ext; intros i r _; simpl; apply id_deref_alter.
Qed.

Lemma ids_deletePermanent x m :
  activeIds (deletePermanent x m) = dropFirst x (activeIds m) ∧
  archiveIds (deletePermanent x m) = dropFirst x (archiveIds m).
Proof.
  rewrite !activeIds_alt, !archiveIds_alt, <- !ids_delete_found. done.
Qed.

Lemma ids_addMenuItem item m :
  wf m ->
  activeIds (addMenuItem item m)
  = activeIds m ++ [foldr Z.max 0 (archiveIds m) + 1] ∧
  archiveIds (addMenuItem item m)
  = archiveIds m ++ [foldr Z.max 0 (archiveIds m) + 1].
Proof.
  intros Hm. unfold activeIds, archiveIds.
  destruct (addMenuItem_views item m Hm) as [-> ->].
  by rewrite !fmap_app.
Qed.

Lemma ids_updateMenuItem x updates m :
  wf m -> Updates.id updates = None ->
  activeIds (updateMenuItem x updates m) = activeIds m ∧
  archiveIds (updateMenuItem x updates m) = archiveIds m.
Proof.
  intros Hm Hid. unfold activeIds, archiveIds.
  destruct (updateMenuItem_views x updates m Hm) as [-> ->].
  split; apply writeFound_ids; intros d; by apply merge_id.
Qed.

Lemma addExistingDish_views x m :
  wf m ->
  (x ∈ archiveIds m ∧ x ∉ activeIds m ->
   ∃ d, findItem (getAllDishes m) (fun d => MenuItem.id d =? x) = Some d ∧
        getMenuItems (addExistingDish x m)
        = getMenuItems m ++ [MenuItem.set_isActive true d] ∧
        getAllDishes (addExistingDish x m) = getAllDishes m) ∧
  (¬ (x ∈ archiveIds m ∧ x ∉ activeIds m) -> addExistingDish x m = m).
Proof.
  intros [Hi Ha]. unfold addExistingDish. split.
  - intros [Harch Hact].
    rewrite archiveIds_alt in Harch. apply hasId_found in Harch as [r Hr].
    rewrite Hr.
    destruct (isDishActive x m) eqn:E; [by apply isDishActive_spec in E |].
    simpl. exists (deref (heap m) r). split; [|split].
    + unfold getAllDishes, snapshot. rewrite findItem_fmap.
      unfold hasId in Hr. by rewrite Hr.
    + unfold getMenuItems, snapshot. simpl. rewrite fmap_app. f_equal.
      * by apply snapshot_insert_alloc.
      * simpl. f_equal. unfold deref. apply lookup_total_insert_eq.
    + unfold getAllDishes. simpl. by apply snapshot_insert_alloc.
  - intros Hnot.
    destruct (findItem (allDishes m) (hasId (heap m) x)) as [r|] eqn:Hr; [|done].
    destruct (isDishActive x m) eqn:E; [done |].
    destruct Hnot. split.
    + rewrite archiveIds_alt. apply hasId_found. by eexists.
    + intros H%isDishActive_spec. congruence.
Qed.

Lemma ids_addExistingDish x m :
  wf m ->
  (activeIds (addExistingDish x m), archiveIds (addExistingDish x m))
  = stepIds (activeIds m, archiveIds m) (AddExistingDish x).
Proof.
  intros Hm. destruct (addExistingDish_views x m Hm) as [Hyes Hno].
  simpl. destruct (decide (x ∈ archiveIds m ∧ x ∉ activeIds m)) as [H|H].
  - destruct (Hyes H) as (d & Hd & Hv & Hv').
    unfold activeIds, archiveIds. rewrite Hv, Hv', fmap_app. simpl.
    apply findItem_Some in Hd as (_ & _ & _ & Hid & _).
    do 3 f_equal. lia.
  - by rewrite (Hno H).
Qed.

Lemma ids_step m o :
  wf m -> fromForms o ->
  (activeIds (step m o), archiveIds (step m o))
  = stepIds (activeIds m, archiveIds m) o.
Proof.
  intros Hm Ho. destruct o as [item|x updates|x|x|x]; simpl.
  - by destruct (ids_addMenuItem item m Hm) as [-> ->].
  - by destruct (ids_updateMenuItem x updates m Hm Ho) as [-> ->].
  - by apply ids_addExistingDish.
  - by destruct (ids_removeMenuItem x m) as [-> ->].
  - by destruct (ids_deletePermanent x m) as [-> ->].
Qed.

(** The id lists stay duplicate free, the active ids among the archive
    ids, under every step of the id machine. *)
Lemma stepIds_unique s o :
  NoDup s.1 ∧ NoDup s.2 ∧ (∀ x, x ∈ s.1 -> x ∈ s.2) ->
  NoDup (stepIds s o).1 ∧ NoDup (stepIds s o).2 ∧
  (∀ x, x ∈ (stepIds s o).1 -> x ∈ (stepIds s o).2).
Proof.
  destruct s as [a r]. simpl. intros (Ha & Hr & Hsub).
  destruct o as [item|x updates|x|x|x]; simpl.
  - assert (Hfresh : foldr Z.max 0 r + 1 ∉ r).
    { intros H. apply (foldr_max_ge 0 r) in H. lia. }
    repeat split.
    + apply NoDup_app. repeat split; [done | | apply NoDup_singleton].
      intros y Hy ->%list_elem_of_singleton. by apply Hfresh, Hsub.
    + apply NoDup_app. repeat split; [done | | apply NoDup_singleton].
      intros y Hy ->%list_elem_of_singleton. done.
    + intros y [Hy|Hy]%elem_of_app; apply elem_of_app; [left; by apply Hsub | by right].
  - done.
  - destruct (decide (x ∈ r ∧ x ∉ a)) as [[Hx Hxa]|_]; simpl; [|done].
    repeat split; [|done|].
    + apply NoDup_app. repeat split; [done | | apply NoDup_singleton].
      intros y Hy ->%list_elem_of_singleton. done.
    + intros y [Hy| ->%list_elem_of_singleton]%elem_of_app; [by apply Hsub | done].
  - repeat split; [by apply dropFirst_NoDup | done |].
    intros y Hy%dropFirst_elem_of. by apply Hsub.
  - destruct (dropFirst_NoDup x a Ha) as [Ha' Hxa].
    destruct (dropFirst_NoDup x r Hr) as [Hr' _].
    repeat split; [done | done |].
    intros y Hy. apply dropFirst_other.
    + intros ->. done.
    + by apply Hsub, (dropFirst_elem_of x).
Qed.

End IdMachine.

Section MenuReachable.
Import MenuManager.

Implicit Types (m : MenuManager.t).

Lemma ids_run ops m :
  wf m -> Forall fromForms ops ->
  (activeIds (run ops m), archiveIds (run ops m))
  = foldl stepIds (activeIds m, archiveIds m) ops.
Proof.
  unfold run. revert m.
  induction ops as [|o ops IH]; simpl; intros m Hm Hops; [done |].
  apply Forall_cons in Hops as [Ho Hops].
  rewrite IH by (done || by apply wf_step). by rewrite ids_step.
Qed.

Lemma foldl_stepIds_unique ops s :
  NoDup s.1 ∧ NoDup s.2 ∧ (∀ x, x ∈ s.1 -> x ∈ s.2) ->
  NoDup (foldl stepIds s ops).1 ∧ NoDup (foldl stepIds s ops).2 ∧
  (∀ x, x ∈ (foldl stepIds s ops).1 -> x ∈ (foldl stepIds s ops).2).
Proof.
  revert s. induction ops as [|o ops IH]; simpl; intros s Hs; [done |].
  by apply IH, stepIds_unique.
Qed.

Lemma parseDishes_keeps (h : gmap nat MenuItem.t) values k v :
  h !! k = Some v -> (parseDishes h values).1 !! k = Some v.
Proof.
  revert h. induction values as [|d rest IH]; intros h Hk; [done |].
  cbn [parseDishes fst snd].
  apply IH. rewrite lookup_insert_ne; [done |].
  intros E. apply (alloc_fresh h). rewrite E. by apply elem_of_dom_2 in Hk.
Qed.

Lemma parseDishes_view (h : gmap nat MenuItem.t) values :
  snapshot (parseDishes h values).1 (parseDishes h values).2 = values ∧
  ∀ r, r ∈ (parseDishes h values).2 -> r ∈ dom (parseDishes h values).1.
Proof.
  revert h. induction values as [|d rest IH]; intros h.
  - split; [done | intros r Hr; inversion Hr].
  - cbn [parseDishes fst snd].
    destruct (IH (<[alloc h := d]> h)) as [Hview Hdom].
    assert (Hd : (parseDishes (<[alloc h := d]> h) rest).1 !! alloc h = Some d)
      by apply parseDishes_keeps, lookup_insert_eq.
    split.
    + unfold snapshot in *. rewrite fmap_cons, Hview. f_equal.
      unfold deref. by apply lookup_total_correct.
    + intros r [->|Hr]%elem_of_cons; [by apply elem_of_dom_2 in Hd | by apply Hdom].
Qed.

Lemma snapshot_filter (h : gmap nat MenuItem.t) (P : MenuItem.t -> Prop)
    (Q : nat -> Prop) `{Pdec : !∀ d, Decision (P d)}
    `{Qdec : !∀ r, Decision (Q r)} (l : list nat) :
  (∀ r, Q r <-> P (deref h r)) ->
  snapshot h (filter Q l) = filter P (snapshot h l).
Proof.
  intros HQ. unfold snapshot. induction l as [|r rest IH]; [done |].
  rewrite fmap_cons, !filter_cons.
  destruct (decide (Q r)) as [Hq|Hq], (decide (P (deref h r))) as [Hp|Hp];
    try (by apply HQ in Hq); try (by apply HQ in Hp).
  - by rewrite fmap_cons, IH.
  - exact IH.
Qed.

Lemma wf_new sm sa remote : wf (new sm sa remote) ∧ allDishes (new sm sa remote) = [].
Proof.
  unfold new, loadMenu, loadMenuFromStorage.
  destruct remote as [menuData|]; [|destruct sm as [saved|]]; simpl.
  - split; [|done]. split; simpl; [apply parseDishes_view | intros r Hr; inversion Hr].
  - split; [|done]. split; simpl; [|intros r Hr; inversion Hr].
    intros r [_ Hr]%list_elem_of_filter. by apply parseDishes_view.
  - split; [|done]. split; simpl; intros r Hr; inversion Hr.
Qed.

End MenuReachable.

(* ================================================================= *)
(** ** Soft removal and later restore *)

(** C4, as stated, fails: in the store holding the one dish just added,
    dish id 1 is in the active list, its archive entry is flagged active,
    and after [removeMenuItem(1)] the same archive entry is flagged
    inactive, the archive and the active list sharing the object. *)
Lemma removeMenuItem_clears_shared_archive_flag :
  MenuItem.id <$> MenuManager.getMenuItems oneDish = [1] ∧
  MenuItem.isActive <$> MenuManager.getAllDishes oneDish = [Some true] ∧
  MenuItem.isActive <$>
    MenuManager.getAllDishes (MenuManager.removeMenuItem 1 oneDish)
  = [Some false] ∧
  MenuManager.getAllDishes (MenuManager.removeMenuItem 1 oneDish)
  ≠ MenuManager.getAllDishes oneDish.
Proof.
  split; [vm_compute; reflexivity |].
  split; [vm_compute; reflexivity |].
  split; [vm_compute; reflexivity |].
  vm_compute. discriminate.
Qed.

(** C4, amended. For every dish id in the active list, [removeMenuItem(id)]
    deletes the first entry of that id from the active list only.  The
    archive keeps the same entries in the same order, and every field of
    every entry other than the [isActive] flag has the value it had before
    the call; an entry that is another object than the removed one keeps
    the flag too.  An archive that held the id before the call still holds
    it; and when, besides, no later active entry has the id, the dish is
    then listed by [getInactiveDishes] and [addExistingDish(id)] appends a
    copy of the archive's first entry of that id, flagged active, to the
    active list, the archive staying as it is. *)
Theorem removeMenuItem_keeps_archive_but_for_flag
    (m : MenuManager.t) (itemId : Z) (before : list nat) (r : nat) (after : list nat) :
  MenuManager.wf m ->
  MenuManager.items m = before ++ r :: after ->
  MenuItem.id (MenuManager.deref (MenuManager.heap m) r) = itemId ->
  (∀ x, x ∈ before -> MenuItem.id (MenuManager.deref (MenuManager.heap m) x) ≠ itemId) ->
  let m' := MenuManager.removeMenuItem itemId m in
  MenuManager.items m' = before ++ after ∧
  MenuManager.allDishes m' = MenuManager.allDishes m ∧
  Forall2 MenuItem.sameButActive
    (MenuManager.getAllDishes m') (MenuManager.getAllDishes m) ∧
  MenuItem.id <$> MenuManager.getAllDishes m'
  = MenuItem.id <$> MenuManager.getAllDishes m ∧
  (∀ a, a ≠ r ->
     MenuManager.deref (MenuManager.heap m') a
     = MenuManager.deref (MenuManager.heap m) a) ∧
  (itemId ∈ MenuManager.archiveIds m -> itemId ∈ MenuManager.archiveIds m') ∧
  (itemId ∈ MenuManager.archiveIds m ->
   (∀ x, x ∈ after ->
      MenuItem.id (MenuManager.deref (MenuManager.heap m) x) ≠ itemId) ->
   ∃ d, findItem (MenuManager.getAllDishes m') (fun d => MenuItem.id d =? itemId)
        = Some d ∧
        d ∈ MenuManager.getInactiveDishes m' ∧
        MenuManager.getMenuItems (MenuManager.addExistingDish itemId m')
        = MenuManager.getMenuItems m' ++ [MenuItem.set_isActive true d] ∧
        MenuManager.getAllDishes (MenuManager.addExistingDish itemId m')
        = MenuManager.getAllDishes m').
Proof.
  intros Hm Hitems Hr Hb m'. subst m'.
  destruct (removeMenuItem_effect m itemId before r after Hitems Hr Hb)
    as (Hi & Ha & _).
  assert (Hsame : Forall2 MenuItem.sameButActive
                    (MenuManager.getAllDishes (MenuManager.removeMenuItem itemId m))
                    (MenuManager.getAllDishes m)).
  { unfold MenuManager.getAllDishes, MenuManager.snapshot. rewrite Ha.
    apply Forall2_fmap_same. intros a _.
    rewrite (removeMenuItem_deref m itemId before r after a) by done.
    destruct (decide (a = r));
      [apply sameButActive_set_isActive | apply sameButActive_refl]. }
  assert (Hids : MenuItem.id <$> MenuManager.getAllDishes
                                   (MenuManager.removeMenuItem itemId m)
                 = MenuItem.id <$> MenuManager.getAllDishes m).
  { clear -Hsame. induction Hsame as [|x y l k Hxy _ IH]; [done |].
    rewrite !fmap_cons. f_equal; [apply Hxy | exact IH]. }
  split; [exact Hi |]. split; [exact Ha |]. split; [exact Hsame |].
  split; [exact Hids |]. split; [|split].
  - intros a Hne.
    rewrite (removeMenuItem_deref m itemId before r after a) by done.
    by destruct (decide (a = r)).
  - intros Harch. unfold MenuManager.archiveIds. by rewrite Hids.
  - intros Harch Hafter.
    assert (Hgone : itemId ∉ MenuManager.activeIds (MenuManager.removeMenuItem itemId m)).
    { rewrite activeIds_alt, Hi.
      intros (a & Hida & Hin)%list_elem_of_fmap. simpl in Hida.
      rewrite (removeMenuItem_deref m itemId before r after a) in Hida by done.
      assert (Hold : MenuItem.id (MenuManager.deref (MenuManager.heap m) a) = itemId).
      { by destruct (decide (a = r)). }
      apply elem_of_app in Hin as [Hin|Hin];
        [exact (Hb a Hin Hold) | exact (Hafter a Hin Hold)]. }
    assert (Hkept : itemId ∈ MenuManager.archiveIds (MenuManager.removeMenuItem itemId m)).
    { unfold MenuManager.archiveIds. by rewrite Hids. }
    destruct (addExistingDish_views itemId _ (wf_removeMenuItem itemId m Hm))
      as [Hyes _].
    destruct (Hyes (conj Hkept Hgone)) as (d & Hd & Hv & Hv').
    exists d. split; [exact Hd |]. split; [|split; [exact Hv | exact Hv']].
    unfold MenuManager.getInactiveDishes.
    apply findItem_Some in Hd as (l & k & Hsplit & Hid & _).
    apply list_elem_of_filter. split.
    + replace (MenuItem.id d) with itemId by lia. exact Hgone.
    + rewrite Hsplit. apply elem_of_app. right. left.
Qed.

Lemma removeMenuItem_keeps_archive_but_for_flag_witness :
  MenuManager.items (MenuManager.removeMenuItem 2 twoDishes) = [0%nat] ∧
  MenuManager.allDishes (MenuManager.removeMenuItem 2 twoDishes) = [0%nat; 1%nat] ∧
  MenuManager.activeIds
    (MenuManager.addExistingDish 2 (MenuManager.removeMenuItem 2 twoDishes))
  = [1; 2].
Proof.
  destruct (removeMenuItem_keeps_archive_but_for_flag twoDishes 2 [0%nat] 1%nat []
              twoDishes_wf) as (Hi & Ha & _ & _ & _ & _ & Hrestore).
  - vm_compute. reflexivity.
  - vm_compute. reflexivity.
  - intros x ->%list_elem_of_singleton. vm_compute. discriminate.
  - split; [exact Hi |]. split; [exact Ha |].
    destruct Hrestore as (d & Hd & _ & Hv & _).
    + apply (bool_decide_unpack _). vm_compute. exact I.
    + intros x Hx. by apply elem_of_nil in Hx.
    + unfold MenuManager.activeIds. rewrite Hv, fmap_app.
      apply findItem_Some in Hd as (_ & _ & _ & Hid & _).
      simpl. replace (MenuItem.id d) with 2 by lia.
      vm_compute. reflexivity.
Defined.

(** After a page load the archive starts empty, so it does not hold the
    removed id: the dish is then in neither list, the restore list is
    empty and [addExistingDish] does nothing. *)
Example removed_dish_of_a_reloaded_menu_cannot_be_restored :
  let reloaded :=
    MenuManager.new (MenuManager.stored_menuItems oneDish)
      (MenuManager.stored_allDishes oneDish) None in
  let removed := MenuManager.removeMenuItem 1 reloaded in
  MenuManager.activeIds reloaded = [1] ∧
  MenuManager.activeIds removed = [] ∧
  MenuManager.archiveIds removed = [] ∧
  MenuManager.getInactiveDishes removed = [] ∧
  MenuManager.getMenuItems (MenuManager.addExistingDish 1 removed) = [].
Proof. vm_compute. done. Qed.

(** X14. For every sequence of admin operations starting from the empty
    store (edits carrying no id, as the edit form sends them), the ids of
    the active list and of the archive are the ones the id machine
    computes: a new dish takes the archive maximum plus one in both
    lists, an edit changes no id, a restore appends an archived inactive
    id to the active list, a removal drops the first occurrence from the
    active list, and a permanent deletion drops it from both. *)
Theorem menu_ids_follow_the_id_machine (ops : list MenuManager.op) :
  Forall MenuManager.fromForms ops ->
  (MenuManager.activeIds (MenuManager.run ops MenuManager.empty),
   MenuManager.archiveIds (MenuManager.run ops MenuManager.empty))
  = foldl MenuManager.stepIds ([], []) ops.
Proof. intros H. by rewrite ids_run by (done || apply wf_empty). Qed.

Lemma menu_ids_follow_the_id_machine_witness :
  (MenuManager.activeIds
     (MenuManager.run
        [MenuManager.AddMenuItem borschtDraft; MenuManager.AddMenuItem teaDraft;
         MenuManager.RemoveMenuItem 1; MenuManager.AddExistingDish 1;
         MenuManager.DeletePermanent 2] MenuManager.empty),
   MenuManager.archiveIds
     (MenuManager.run
        [MenuManager.AddMenuItem borschtDraft; MenuManager.AddMenuItem teaDraft;
         MenuManager.RemoveMenuItem 1; MenuManager.AddExistingDish 1;
         MenuManager.DeletePermanent 2] MenuManager.empty))
  = ([1], [1]).
Proof.
  rewrite (menu_ids_follow_the_id_machine
             [MenuManager.AddMenuItem borschtDraft; MenuManager.AddMenuItem teaDraft;
              MenuManager.RemoveMenuItem 1; MenuManager.AddExistingDish 1;
              MenuManager.DeletePermanent 2]).
  - reflexivity.
  - repeat constructor.
Defined.

(** X15. In every store reached from the empty one by admin operations
    (edits carrying no id), no two active dishes share an id, no two
    archive dishes share an id, and every active id is an archive id. *)
Theorem reachable_menu_ids_are_unique (ops : list MenuManager.op) :
  Forall MenuManager.fromForms ops ->
  let m := MenuManager.run ops MenuManager.empty in
  NoDup (MenuManager.activeIds m) ∧
  NoDup (MenuManager.archiveIds m) ∧
  (∀ x, x ∈ MenuManager.activeIds m -> x ∈ MenuManager.archiveIds m).
Proof.
  intros Hops m.
  pose proof (ids_run ops MenuManager.empty wf_empty Hops) as Hrun.
  pose proof (foldl_stepIds_unique ops ([], [])) as Hu.
  fold m in Hrun. change (MenuManager.activeIds MenuManager.empty) with (@nil Z) in Hrun.
  change (MenuManager.archiveIds MenuManager.empty) with (@nil Z) in Hrun.
  rewrite <- Hrun in Hu. simpl in Hu. apply Hu.
  repeat split; [constructor | constructor | intros x Hx; inversion Hx].
Qed.

Lemma reachable_menu_ids_are_unique_witness :
  NoDup (MenuManager.activeIds
           (MenuManager.run
              [MenuManager.AddMenuItem borschtDraft; MenuManager.RemoveMenuItem 1;
               MenuManager.AddExistingDish 1; MenuManager.AddExistingDish 1]
              MenuManager.empty)).
Proof.
  refine (proj1 (reachable_menu_ids_are_unique
                   [MenuManager.AddMenuItem borschtDraft; MenuManager.RemoveMenuItem 1;
                    MenuManager.AddExistingDish 1; MenuManager.AddExistingDish 1] _)).
  repeat constructor.
Defined.

(** X16. In a store where dish ids are unique within each list,
    [deletePermanent(id)] leaves no dish of that id in the active list
    or in the archive, and the list offered for restore
    ([getInactiveDishes]) has none either. *)
Theorem deletePermanent_erases_the_id (m : MenuManager.t) (itemId : Z) :
  NoDup (MenuManager.activeIds m) ->
  NoDup (MenuManager.archiveIds m) ->
  let m' := MenuManager.deletePermanent itemId m in
  (itemId ∉ MenuManager.activeIds m') ∧
  (itemId ∉ MenuManager.archiveIds m') ∧
  (∀ d, d ∈ MenuManager.getInactiveDishes m' -> MenuItem.id d ≠ itemId).
Proof.
  intros Ha Hr m'. subst m'.
  destruct (ids_deletePermanent itemId m) as [Ea Er].
  assert (Harch : itemId ∉ MenuManager.archiveIds (MenuManager.deletePermanent itemId m)).
  { rewrite Er. exact (proj2 (dropFirst_NoDup itemId _ Hr)). }
  split; [rewrite Ea; exact (proj2 (dropFirst_NoDup itemId _ Ha)) |].
  split; [exact Harch |].
  intros d [_ Hd]%list_elem_of_filter Hid. apply Harch.
  apply list_elem_of_fmap. by exists d.
Qed.

Lemma deletePermanent_erases_the_id_witness :
  2 ∉ MenuManager.archiveIds (MenuManager.deletePermanent 2 twoDishes).
Proof.
  refine (proj1 (proj2 (deletePermanent_erases_the_id twoDishes 2 _ _)));
    apply (bool_decide_unpack _); vm_compute; exact I.
Defined.

(** X17. [updateMenuItem(id, updates)] rewrites, in the active list and
    in the archive independently, the first dish with that id as the
    merge of the dish with the updates, and nothing else; a list without
    the id is left as it is. *)
Theorem updateMenuItem_merges_in_both_lists
    (m : MenuManager.t) (itemId : Z) (updates : Updates.t) :
  MenuManager.wf m ->
  let m' := MenuManager.updateMenuItem itemId updates m in
  MenuManager.getMenuItems m'
  = writeFound (MenuManager.getMenuItems m) (fun d => MenuItem.id d =? itemId)
      (fun d => MenuManager.merge d updates) ∧
  MenuManager.getAllDishes m'
  = writeFound (MenuManager.getAllDishes m) (fun d => MenuItem.id d =? itemId)
      (fun d => MenuManager.merge d updates) ∧
  (itemId ∉ MenuManager.activeIds m ->
   MenuManager.getMenuItems m' = MenuManager.getMenuItems m) ∧
  (itemId ∉ MenuManager.archiveIds m ->
   MenuManager.getAllDishes m' = MenuManager.getAllDishes m).
Proof.
  intros Hm m'. subst m'.
  destruct (updateMenuItem_views itemId updates m Hm) as [Hi Ha].
  split; [exact Hi |]. split; [exact Ha |]. split; intros Hx.
  - rewrite Hi. apply writeFound_absent, findItem_None.
    intros d Hd. apply Z.eqb_neq. intros <-. apply Hx.
    by apply list_elem_of_fmap_2.
  - rewrite Ha. apply writeFound_absent, findItem_None.
    intros d Hd. apply Z.eqb_neq. intros <-. apply Hx.
    by apply list_elem_of_fmap_2.
Qed.

Lemma updateMenuItem_merges_in_both_lists_witness :
  MenuManager.getAllDishes
    (MenuManager.updateMenuItem 2
       (Updates.mk None None (Some 95) None None None None None) twoDishes)
  = [MenuItem.mk 1 "Борщ" 150 "Суп" "Первые блюда" "borscht.png" (Some false) (Some true);
     MenuItem.mk 2 "Чай" 95 "Напиток" "Напитки" "tea.png" (Some true) (Some true)].
Proof.
  rewrite (proj1 (proj2 (updateMenuItem_merges_in_both_lists twoDishes 2
                           (Updates.mk None None (Some 95) None None None None None)
                           twoDishes_wf))).
  rewrite twoDishes_archive. reflexivity.
Defined.

(** X18. [addExistingDish(id)] changes the store only when the archive has
    a dish of that id and the active list has none: then a copy of the
    first such archive dish, flagged active, is appended to the active
    list and the archive stays as it is.  In every other case, an id
    already active included, the store is returned unchanged. *)
Theorem addExistingDish_restores_or_does_nothing (m : MenuManager.t) (dishId : Z) :
  MenuManager.wf m ->
  (dishId ∈ MenuManager.archiveIds m ∧ dishId ∉ MenuManager.activeIds m ->
   ∃ d, findItem (MenuManager.getAllDishes m) (fun d => MenuItem.id d =? dishId)
        = Some d ∧
        MenuManager.getMenuItems (MenuManager.addExistingDish dishId m)
        = MenuManager.getMenuItems m ++ [MenuItem.set_isActive true d] ∧
        MenuManager.getAllDishes (MenuManager.addExistingDish dishId m)
        = MenuManager.getAllDishes m) ∧
  (¬ (dishId ∈ MenuManager.archiveIds m ∧ dishId ∉ MenuManager.activeIds m) ->
   MenuManager.addExistingDish dishId m = m).
Proof. apply addExistingDish_views. Qed.

Lemma addExistingDish_restores_or_does_nothing_witness :
  MenuManager.addExistingDish 2 twoDishes = twoDishes.
Proof.
  apply (proj2 (addExistingDish_restores_or_does_nothing twoDishes 2 twoDishes_wf)).
  intros [_ H]. apply H. apply (bool_decide_unpack _). vm_compute. exact I.
Defined.

(** X19. What [loadMenu] leaves in the active list: the remote menu when
    the request answered, which is also saved as the local copy;
    otherwise the stored dishes not flagged inactive, in stored order;
    and an empty menu, saved as such, when nothing is stored. *)
Theorem loadMenu_falls_back_to_the_stored_menu
    (storedMenu storedArchive : option (list MenuItem.t))
    (remote : option (list MenuItem.t)) :
  let m := MenuManager.new storedMenu storedArchive remote in
  MenuManager.getMenuItems m
  = match remote, storedMenu with
    | Some menuData, _ => menuData
    | None, Some saved =>
        filter (fun d => MenuItem.isActive d ≠ Some false) saved
    | None, None => []
    end ∧
  MenuManager.stored_menuItems m
  = match remote, storedMenu with
    | Some menuData, _ => Some menuData
    | None, Some saved => Some saved
    | None, None => Some []
    end ∧
  MenuManager.filteredItems m = MenuManager.items m.
Proof.
  intros m. subst m. unfold MenuManager.new, MenuManager.loadMenu,
    MenuManager.loadMenuFromStorage, MenuManager.getMenuItems.
  destruct remote as [menuData|]; [|destruct storedMenu as [saved|]];
    cbv zeta;
    cbn [MenuManager.heap MenuManager.items MenuManager.filteredItems
         MenuManager.stored_menuItems MenuManager.allDishes
         MenuManager.resetFilter].
  - by rewrite (proj1 (parseDishes_view ∅ menuData)).
  - split; [|done].
    etrans;
      [apply (snapshot_filter _ (fun d => MenuItem.isActive d ≠ Some false));
       intros r; reflexivity |].
    by rewrite (proj1 (parseDishes_view ∅ saved)).
  - done.
Qed.

(** X20. After a page load the archive in memory is empty whatever was
    stored, so the first dish added gets the id 1, also when the loaded
    menu already has a dish with the id 1. *)
Theorem first_dish_after_load_gets_id_one
    (storedMenu storedArchive : option (list MenuItem.t))
    (remote : option (list MenuItem.t)) (item : Draft.t) :
  let m := MenuManager.new storedMenu storedArchive remote in
  MenuManager.archiveIds m = [] ∧
  MenuManager.activeIds (MenuManager.addMenuItem item m)
  = MenuManager.activeIds m ++ [1] ∧
  MenuManager.archiveIds (MenuManager.addMenuItem item m) = [1].
Proof.
  intros m. subst m.
  destruct (wf_new storedMenu storedArchive remote) as [Hwf Hall].
  assert (Harch : MenuManager.archiveIds
                    (MenuManager.new storedMenu storedArchive remote) = []).
  { unfold MenuManager.archiveIds, MenuManager.getAllDishes. by rewrite Hall. }
  destruct (ids_addMenuItem item _ Hwf) as [Ha Hr].
  rewrite Ha, Hr, Harch. done.
Qed.

Example reloaded_menu_gets_a_second_dish_with_id_one :
  MenuManager.activeIds
    (MenuManager.addMenuItem teaDraft
       (MenuManager.new (MenuManager.stored_menuItems oneDish)
          (MenuManager.stored_allDishes oneDish) None))
  = [1; 1].
Proof. vm_compute. reflexivity. Qed.

(* ================================================================= *)
(** ** The add-to-cart button *)

Section AddToCart.
Import CartManager.

Implicit Types (c : CartManager.t).

Lemma addItem_absent item c :
  MenuItem.id item ∉ ids c ->
  items (addItem item c) = items c ++ [CartItem.mk item 1].
Proof.
  intros H%findItem_id_None. unfold addItem. by rewrite H.
Qed.

Lemma addItem_present item c before line after :
  items c = before ++ line :: after ->
  CartItem.id line = MenuItem.id item ->
  MenuItem.id item ∉ CartItem.id <$> before ->
  items (addItem item c)
  = before ++ CartItem.mk (CartItem.dish line) (CartItem.quantity line + 1) :: after.
Proof.
  intros Hc Hid Hb.
  assert (Hline : (CartItem.id line =? MenuItem.id item) = true) by lia.
  assert (Hbefore : ∀ y, y ∈ before -> (CartItem.id y =? MenuItem.id item) = false).
  { intros y Hy. apply Z.eqb_neq. intros E. apply Hb. rewrite <- E.
    by apply list_elem_of_fmap_2. }
  assert (E : findItem (items c)
                (fun cartItem => CartItem.id cartItem =? MenuItem.id item)
              = Some line).
  { apply findItem_Some. by exists before, after. }
  unfold addItem. rewrite E. simpl.
  rewrite Hc, (writeFound_split before line after) by done. reflexivity.
Qed.

End AddToCart.

(** X21. One click on the add-to-cart button of a dish that is in the
    active list runs [addItem] once for the button's own listener and,
    when the archive holds the dish too, once more for the document's
    listener: a dish without a line gets a line with quantity 2, and an
    existing line grows by 2.  When the archive does not hold the dish (as
    after a page load) the click adds 1: a dish without a line gets a
    line with quantity 1, and an existing line grows by 1. *)
Theorem add_to_cart_click_adds_twice_for_archived_dishes
    (menu : MenuManager.t) (cart : CartManager.t) (itemId : Z) (r : nat) :
  findItem (MenuManager.items menu)
    (MenuManager.hasId (MenuManager.heap menu) itemId) = Some r ->
  let dish := MenuManager.deref (MenuManager.heap menu) r in
  (is_Some (MenuManager.getMenuItemById itemId menu) ->
   (itemId ∉ CartManager.ids cart ->
    CartManager.items (addToCartClick itemId menu cart)
    = CartManager.items cart ++ [CartItem.mk dish 2]) ∧
   (∀ before line after,
      CartManager.items cart = before ++ line :: after ->
      CartItem.id line = itemId ->
      itemId ∉ CartItem.id <$> before ->
      CartManager.items (addToCartClick itemId menu cart)
      = before
        ++ CartItem.mk (CartItem.dish line) (CartItem.quantity line + 2) :: after)) ∧
  (MenuManager.getMenuItemById itemId menu = None ->
   (itemId ∉ CartManager.ids cart ->
    CartManager.items (addToCartClick itemId menu cart)
    = CartManager.items cart ++ [CartItem.mk dish 1]) ∧
   (∀ before line after,
      CartManager.items cart = before ++ line :: after ->
      CartItem.id line = itemId ->
      itemId ∉ CartItem.id <$> before ->
      CartManager.items (addToCartClick itemId menu cart)
      = before
        ++ CartItem.mk (CartItem.dish line) (CartItem.quantity line + 1) :: after)).
Proof.
  intros Hr dish.
  assert (Hdish : MenuItem.id dish = itemId).
  { apply findItem_Some in Hr as (_ & _ & _ & H & _).
    unfold MenuManager.hasId in H. unfold dish. lia. }
  unfold addToCartClick. rewrite Hr. fold dish. split.
  - intros [item Hitem]. rewrite Hitem.
    assert (Hitemid : MenuItem.id item = itemId).
    { unfold MenuManager.getMenuItemById in Hitem.
      destruct (findItem (MenuManager.allDishes menu) _) as [a|] eqn:Ea;
        [|discriminate Hitem].
      injection Hitem as <-.
      apply findItem_Some in Ea as (_ & _ & _ & H & _).
      unfold MenuManager.hasId in H. lia. }
    split.
    + intros Habs.
      rewrite (addItem_present item _ (CartManager.items cart) (CartItem.mk dish 1) []).
      * reflexivity.
      * rewrite addItem_absent by (by rewrite Hdish). reflexivity.
      * unfold CartItem.id. simpl. lia.
      * by rewrite Hitemid.
    + intros before line after Hc Hid Hb.
      rewrite (addItem_present item _ before
                 (CartItem.mk (CartItem.dish line) (CartItem.quantity line + 1)) after).
      * simpl. do 3 f_equal. lia.
      * apply (addItem_present dish cart before line after);
          [done | lia | by rewrite Hdish].
      * unfold CartItem.id in *. simpl. lia.
      * by rewrite Hitemid.
  - intros Hnone. rewrite Hnone. split.
    + intros Habs. apply addItem_absent. by rewrite Hdish.
    + intros before line after Hc Hid Hb.
      apply (addItem_present dish cart before line after);
        [done | lia | by rewrite Hdish].
Qed.

Lemma add_to_cart_click_adds_twice_for_archived_dishes_witness :
  CartManager.items (addToCartClick 1 oneDish CartManager.empty)
  = [CartItem.mk
       (MenuItem.mk 1 "Борщ" 150 "Суп" "Первые блюда" "borscht.png"
          (Some false) (Some true)) 2].
Proof.
  refine (proj1 (proj1 (add_to_cart_click_adds_twice_for_archived_dishes
                          oneDish CartManager.empty 1 0%nat _) _) _).
  - vm_compute. reflexivity.
  - vm_compute. by eexists.
  - apply (bool_decide_unpack _). vm_compute. exact I.
Defined.

(* ================================================================= *)
(** ** SimpleMap *)

Section SimpleMapLaws.
Context {K V : Type} `{EqDecision K}.
Implicit Types (items : list (K * V)) (key : K) (value : V).

Lemma findItem_app {T : Type} (l k : list T) (predicate : T -> bool) :
  findItem (l ++ k) predicate
  = match findItem l predicate with
    | Some x => Some x
    | None => findItem k predicate
    end.
Proof.
  induction l as [|x rest IH]; simpl; [done |]. by destruct (predicate x).
Qed.

Lemma sameKey_true key (item : K * V) :
  SimpleMap.sameKey key item = true <-> item.1 = key.
Proof. unfold SimpleMap.sameKey. by rewrite bool_decide_eq_true. Qed.

Lemma sameKey_false key (item : K * V) :
  SimpleMap.sameKey key item = false <-> item.1 ≠ key.
Proof. unfold SimpleMap.sameKey. by rewrite bool_decide_eq_false. Qed.

(** [set] either rewrites the value of the first entry with the key or
    appends a new entry. *)
Lemma set_cases key value items :
  (∃ before old after,
     items = before ++ (key, old) :: after ∧
     (∀ y, y ∈ before -> y.1 ≠ key) ∧
     SimpleMap.set key value items = before ++ (key, value) :: after) ∨
  ((∀ y, y ∈ items -> y.1 ≠ key) ∧
   SimpleMap.set key value items = items ++ [(key, value)]).
Proof.
  unfold SimpleMap.set.
  destruct (findItem items (SimpleMap.sameKey key)) as [[k old]|] eqn:E.
  - left. apply findItem_Some in E as (before & after & -> & Hk & Hb).
    apply sameKey_true in Hk. simpl in Hk. subst k.
    exists before, old, after. split; [done |]. split.
    + intros y Hy. by apply sameKey_false, Hb.
    + rewrite findIndex_split; [| by apply sameKey_true | done].
      destruct (Z.eqb_spec (Z.of_nat (length before)) (-1)); [lia |]. simpl.
      by rewrite Nat2Z.id, alter_middle.
  - right. pose proof E as E'. apply findIndex_None in E'. rewrite E'. simpl.
    split; [|done]. intros y Hy. apply sameKey_false.
    by apply (proj1 (findItem_None _ _) E).
Qed.

Lemma get_before key (before : list (K * V)) rest :
  (∀ y, y ∈ before -> y.1 ≠ key) ->
  SimpleMap.get key (before ++ rest) = SimpleMap.get key rest.
Proof.
  intros Hb. unfold SimpleMap.get. rewrite findItem_app.
  assert (E : findItem before (SimpleMap.sameKey key) = None).
  { apply findItem_None. intros y Hy. by apply sameKey_false, Hb. }
  by rewrite E.
Qed.

Lemma get_split key' (before : list (K * V)) item rest :
  item.1 ≠ key' ->
  SimpleMap.get key' (before ++ item :: rest) = SimpleMap.get key' (before ++ rest).
Proof.
  intros Hne. unfold SimpleMap.get. rewrite !findItem_app. simpl.
  apply sameKey_false in Hne. by rewrite Hne.
Qed.

End SimpleMapLaws.

(** X22. SimpleMap: after [set(key, value)], [get(key)] returns that value
    and [get] of every other key returns what it returned before;
    [has(key)] is true exactly when [get(key)] finds an entry. *)
Theorem SimpleMap_get_after_set {K V : Type} `{EqDecision K}
    (items : list (K * V)) (key : K) (value : V) :
  SimpleMap.get key (SimpleMap.set key value items) = Some value ∧
  (∀ other, other ≠ key ->
     SimpleMap.get other (SimpleMap.set key value items)
     = SimpleMap.get other items) ∧
  (∀ other, SimpleMap.has other items = true
            <-> is_Some (SimpleMap.get other items)).
Proof.
  split; [|split].
  - destruct (set_cases key value items)
      as [(before & old & after & -> & Hb & ->) | (Hb & ->)].
    + rewrite get_before by done. unfold SimpleMap.get. simpl.
      unfold SimpleMap.sameKey. simpl. by rewrite bool_decide_eq_true_2.
    + rewrite get_before by done. unfold SimpleMap.get. simpl.
      unfold SimpleMap.sameKey. simpl. by rewrite bool_decide_eq_true_2.
  - intros other Hne.
    destruct (set_cases key value items)
      as [(before & old & after & -> & Hb & ->) | (Hb & ->)].
    + by rewrite !(get_split other before) by (simpl; congruence).
    + rewrite <- (app_nil_r items) at 2.
      rewrite (get_split other items (key, value) []) by (simpl; congruence).
      done.
  - intros other. unfold SimpleMap.has, SimpleMap.get.
    destruct (findItem items (SimpleMap.sameKey other)) eqn:E.
    + split; [by eexists |]. intros _.
      destruct (Z.eqb_spec (findIndex items (SimpleMap.sameKey other)) (-1)) as [E'|];
        [|done].
      apply findIndex_None in E'. congruence.
    + apply findIndex_None in E. rewrite E. simpl.
      split; [done | by intros [? ?]].
Qed.

Lemma SimpleMap_get_after_set_witness :
  SimpleMap.get "cart-modal"
    (SimpleMap.set "login-modal" 7 (SimpleMap.set "cart-modal" 3 []))
  = SimpleMap.get "cart-modal" (SimpleMap.set "cart-modal" 3 []).
Proof.
  apply (proj1 (proj2 (SimpleMap_get_after_set
                         (SimpleMap.set "cart-modal" 3 []) "login-modal" 7))).
  discriminate.
Defined.

(** X23. SimpleMap keeps one entry per key in the order of first
    insertion: [set] of a key already present leaves the key sequence
    as it is, [set] of a new key appends it, and a map built from the
    empty one by [set] calls never holds a key twice. *)
Theorem SimpleMap_keys_stay_distinct {K V : Type} `{EqDecision K}
    (items : list (K * V)) (key : K) (value : V) :
  SimpleMap.keys (SimpleMap.set key value items)
  = (if decide (key ∈ SimpleMap.keys items)
     then SimpleMap.keys items else SimpleMap.keys items ++ [key]) ∧
  (NoDup (SimpleMap.keys items) ->
   NoDup (SimpleMap.keys (SimpleMap.set key value items))).
Proof.
  assert (Hkeys : SimpleMap.keys (SimpleMap.set key value items)
                  = if decide (key ∈ SimpleMap.keys items)
                    then SimpleMap.keys items else SimpleMap.keys items ++ [key]).
  { unfold SimpleMap.keys.
    destruct (set_cases key value items)
      as [(before & old & after & -> & Hb & ->) | (Hb & ->)].
    - rewrite !fmap_app, !fmap_cons. simpl.
      destruct (decide (key ∈ (fst <$> before) ++ key :: (fst <$> after)))
        as [_|Hn]; [done |].
      destruct Hn. apply elem_of_app. right. left.
    - rewrite fmap_app. simpl.
      destruct (decide (key ∈ fst <$> items)) as [Hin|_]; [|done].
      apply list_elem_of_fmap in Hin as (y & Hy & Hin).
      by destruct (Hb y Hin). }
  split; [exact Hkeys |]. intros Hnd. rewrite Hkeys.
  destruct (decide (key ∈ SimpleMap.keys items)) as [_|Hn]; [done |].
  apply NoDup_app. repeat split; [done | | apply NoDup_singleton].
  intros x Hx ->%list_elem_of_singleton. done.
Qed.

Lemma SimpleMap_keys_stay_distinct_witness :
  NoDup (SimpleMap.keys
           (SimpleMap.set "cart-modal" 9
              (SimpleMap.set "login-modal" 7 (SimpleMap.set "cart-modal" 3 [])))).
Proof.
  apply (proj2 (SimpleMap_keys_stay_distinct
                  (SimpleMap.set "login-modal" 7 (SimpleMap.set "cart-modal" 3 []))
                  "cart-modal" 9)).
  apply (bool_decide_unpack _). vm_compute. exact I.
Defined.

(* ================================================================= *)
(** ** [escapeHtml] *)

Section EscapeHtml.

Lemma string_app_assoc (x y z : string) :
  String.append (String.append x y) z = String.append x (String.append y z).
Proof.
  induction x as [|a x IH]; [reflexivity |].
  change (String a (String.append (String.append x y) z)
          = String a (String.append x (String.append y z))).
  by rewrite IH.
Qed.

Lemma replaceAll_app c by_ (x y : string) :
  replaceAll c by_ (String.append x y)
  = String.append (replaceAll c by_ x) (replaceAll c by_ y).
Proof.
  induction x as [|a x IH]; [done |].
  change (String.append (String a x) y) with (String a (String.append x y)).
  cbn [replaceAll]. rewrite IH.
  destruct (Ascii.eqb a c); [symmetry; apply string_app_assoc | done].
Qed.

Lemma allChars_app test (x y : string) :
  allChars test (String.append x y) = allChars test x && allChars test y.
Proof.
  induction x as [|a x IH]; [reflexivity |].
  change (String.append (String a x) y) with (String a (String.append x y)).
  cbn [allChars]. rewrite IH. by destruct (test a).
Qed.

(** The five passes amount to one pass that rewrites each character on
    its own: no pass touches what an earlier pass produced. *)
Lemma escapeHtml_cons a rest :
  escapeHtml (String a rest) = String.append (escapeChar a) (escapeHtml rest).
Proof.
  unfold escapeHtml, escapeChar. cbn [replaceAll].
  destruct (Ascii.eqb a "&"%char); [by rewrite !replaceAll_app |].
  cbn [replaceAll].
  destruct (Ascii.eqb a "<"%char); [by rewrite !replaceAll_app |].
  cbn [replaceAll].
  destruct (Ascii.eqb a ">"%char); [by rewrite !replaceAll_app |].
  cbn [replaceAll].
  destruct (Ascii.eqb a doubleQuote); [by rewrite !replaceAll_app |].
  cbn [replaceAll].
  by destruct (Ascii.eqb a "'"%char).
Qed.

Lemma escapeChar_clean a : allChars (fun c => negb (isMarkup c)) (escapeChar a) = true.
Proof.
  unfold escapeChar.
  destruct (Ascii.eqb a "&"%char) eqn:E0; [reflexivity |].
  destruct (Ascii.eqb a "<"%char) eqn:E1; [reflexivity |].
  destruct (Ascii.eqb a ">"%char) eqn:E2; [reflexivity |].
  destruct (Ascii.eqb a doubleQuote) eqn:E3; [reflexivity |].
  destruct (Ascii.eqb a "'"%char) eqn:E4; [reflexivity |].
  simpl. unfold isMarkup. by rewrite E1, E2, E3, E4.
Qed.

End EscapeHtml.

(** X24. [escapeHtml] leaves none of the characters [<], [>], the double
    quote and the single quote in its result; it works character by
    character, so the escaping of a concatenation is the concatenation of
    the escapings; and a text without those four characters and without
    [&] comes back unchanged. *)
Theorem escapeHtml_removes_markup_characters (text more : string) :
  allChars (fun c => negb (isMarkup c)) (escapeHtml text) = true ∧
  escapeHtml (String.append text more)
  = String.append (escapeHtml text) (escapeHtml more) ∧
  (allChars (fun c => negb (isMarkup c || Ascii.eqb c "&"%char)) text = true ->
   escapeHtml text = text).
Proof.
  split; [|split].
  - induction text as [|a rest IH]; [reflexivity |].
    by rewrite escapeHtml_cons, allChars_app, escapeChar_clean, IH.
  - induction text as [|a rest IH]; [reflexivity |].
    change (String.append (String a rest) more) with (String a (String.append rest more)).
    by rewrite !escapeHtml_cons, IH, string_app_assoc.
  - induction text as [|a rest IH]; [reflexivity |].
    cbn [allChars]. intros [Ha Hrest]%andb_prop.
    rewrite escapeHtml_cons, IH by done.
    unfold escapeChar, isMarkup in *.
    destruct (Ascii.eqb a "&"%char); [by rewrite !orb_true_r in Ha |].
    destruct (Ascii.eqb a "<"%char); [done |].
    destruct (Ascii.eqb a ">"%char); [done |].
    destruct (Ascii.eqb a doubleQuote); [done |].
    by destruct (Ascii.eqb a "'"%char).
Qed.

Lemma escapeHtml_removes_markup_characters_witness :
  escapeHtml "Borscht 150" = "Borscht 150" ∧
  escapeHtml "<b>Tom & Jerry's</b>" = "&lt;b&gt;Tom &amp; Jerry&#039;s&lt;/b&gt;".
Proof.
  split; [|reflexivity].
  apply (proj2 (proj2 (escapeHtml_removes_markup_characters "Borscht 150" ""))).
  reflexivity.
Defined.

(* ================================================================= *)
(** ** The pickup-time field *)

Section TimeField.

Lemma isDigit_cases (a : ascii) :
  isDigit a = true ->
  In a ["0"; "1"; "2"; "3"; "4"; "5"; "6"; "7"; "8"; "9"]%char.
Proof.
  destruct a as [[] [] [] [] [] [] [] []]; intros H;
    try discriminate H; simpl; tauto.
Qed.

Lemma digitsOnly_digits (text : string) : allChars isDigit (digitsOnly text) = true.
Proof.
  induction text as [|a rest IH]; [reflexivity |]. cbn [digitsOnly].
  destruct (isDigit a) eqn:E; [|done]. cbn [allChars]. by rewrite E, IH.
Qed.

Lemma four_digits (digits : string) :
  allChars isDigit digits = true ->
  (4 <= String.length digits)%nat ->
  ∃ d1 d2 d3 d4 rest,
    digits = String d1 (String d2 (String d3 (String d4 rest))) ∧
    isDigit d1 = true ∧ isDigit d2 = true ∧ isDigit d3 = true ∧ isDigit d4 = true.
Proof.
  intros Hd Hlen.
  destruct digits as [|d1 [|d2 [|d3 [|d4 rest]]]]; simpl in Hlen; try lia.
  cbn [allChars] in Hd.
  apply andb_prop in Hd as [H1 Hd]. apply andb_prop in Hd as [H2 Hd].
  apply andb_prop in Hd as [H3 Hd]. apply andb_prop in Hd as [H4 _].
  by exists d1, d2, d3, d4, rest.
Qed.

(** Only the first four digits typed reach the field. *)
Lemma formatTimeInput_first_four typed d1 d2 d3 d4 rest :
  digitsOnly typed = String d1 (String d2 (String d3 (String d4 rest))) ->
  isDigit d1 = true -> isDigit d2 = true -> isDigit d3 = true -> isDigit d4 = true ->
  formatTimeInput typed
  = formatTimeInput (String d1 (String d2 (String d3 (String d4 EmptyString)))).
Proof.
  intros Hds H1 H2 H3 H4. unfold formatTimeInput.
  rewrite Hds. cbn [digitsOnly]. rewrite H1, H2, H3, H4.
  change (0 <? String.length (String d1 (String d2 (String d3 (String d4 rest)))))%nat
    with true.
  change (substring 0 4 (String d1 (String d2 (String d3 (String d4 rest)))))
    with (String d1 (String d2 (String d3 (String d4 (String.substring 0 0 rest))))).
  replace (String.substring 0 0 rest) with EmptyString by (by destruct rest).
  reflexivity.
Qed.

Lemma four_digit_times_are_clamped :
  forallb (fun d1 => forallb (fun d2 => forallb (fun d3 => forallb (fun d4 =>
    String.eqb
      (formatTimeInput (String d1 (String d2 (String d3 (String d4 EmptyString)))))
      (clampedTime d1 d2 d3 d4)
    && validateTimeFormat (clampedTime d1 d2 d3 d4))
    ["0"; "1"; "2"; "3"; "4"; "5"; "6"; "7"; "8"; "9"]%char)
    ["0"; "1"; "2"; "3"; "4"; "5"; "6"; "7"; "8"; "9"]%char)
    ["0"; "1"; "2"; "3"; "4"; "5"; "6"; "7"; "8"; "9"]%char)
    ["0"; "1"; "2"; "3"; "4"; "5"; "6"; "7"; "8"; "9"]%char
  = true.
Proof. vm_compute. reflexivity. Qed.

End TimeField.

(** X25. Once at least four digits have been typed into the time field,
    whatever else was typed, the field holds the time the first four
    digits spell, two for the hours and two for the minutes with a colon
    between them, except that hours above 23 are replaced by 23 and
    minutes above 59 by 59; [validateTimeFormat] accepts that text. *)
Theorem time_field_holds_a_valid_time_after_four_digits (typed : string) :
  (4 <= String.length (digitsOnly typed))%nat ->
  ∃ d1 d2 d3 d4 rest,
    digitsOnly typed = String d1 (String d2 (String d3 (String d4 rest))) ∧
    formatTimeInput typed = clampedTime d1 d2 d3 d4 ∧
    validateTimeFormat (formatTimeInput typed) = true.
Proof.
  intros Hlen.
  destruct (four_digits (digitsOnly typed) (digitsOnly_digits typed) Hlen)
    as (d1 & d2 & d3 & d4 & rest & Hds & H1 & H2 & H3 & H4).
  exists d1, d2, d3, d4, rest. split; [exact Hds |].
  rewrite (formatTimeInput_first_four typed d1 d2 d3 d4 rest) by done.
  pose proof four_digit_times_are_clamped as Hall.
  rewrite forallb_forall in Hall.
  specialize (Hall d1 (isDigit_cases d1 H1)). rewrite forallb_forall in Hall.
  specialize (Hall d2 (isDigit_cases d2 H2)). rewrite forallb_forall in Hall.
  specialize (Hall d3 (isDigit_cases d3 H3)). rewrite forallb_forall in Hall.
  specialize (Hall d4 (isDigit_cases d4 H4)).
  apply andb_prop in Hall as [Heq Hvalid].
  apply String.eqb_eq in Heq. rewrite Heq. by split.
Qed.

Lemma time_field_holds_a_valid_time_after_four_digits_witness :
  formatTimeInput "at 27.85 o'clock" = "23:59" ∧
  validateTimeFormat (formatTimeInput "at 27.85 o'clock") = true.
Proof.
  destruct (time_field_holds_a_valid_time_after_four_digits "at 27.85 o'clock")
    as (d1 & d2 & d3 & d4 & rest & Hds & Hfield & Hvalid).
  - vm_compute. lia.
  - split; [|exact Hvalid].
    vm_compute in Hds. injection Hds as <- <- <- <- _.
    exact Hfield.
Defined.

(** X26. A text that [validateTimeFormat] accepts has exactly five
    characters, two digits, a colon and two digits, and is never empty:
    what the set-time form hands to its callback always passes the
    callback's truthiness test. *)
Theorem accepted_times_are_five_characters (time : string) :
  validateTimeFormat time = true ->
  String.length time = 5%nat ∧
  truthy (Some time) = true ∧
  ∃ h1 h2 m1 m2,
    time = String h1 (String h2 (String ":" (String m1 (String m2 EmptyString)))) ∧
    isDigit h1 = true ∧ isDigit h2 = true ∧ isDigit m1 = true ∧ isDigit m2 = true.
Proof.
  intros H.
  destruct time as [|h1 [|h2 [|c [|m1 [|m2 [|extra rest]]]]]]; try discriminate H.
  cbn [validateTimeFormat] in H.
  apply andb_prop in H as [H Hm2]. apply andb_prop in H as [H Hm1].
  apply andb_prop in H as [Hh Hc]. apply Ascii.eqb_eq in Hc as ->.
  split; [reflexivity |]. split; [reflexivity |].
  exists h1, h2, m1, m2. split; [reflexivity |].
  assert (Hm1' : isDigit m1 = true).
  { destruct m1 as [[] [] [] [] [] [] [] []]; try discriminate Hm1; reflexivity. }
  assert (Hh' : isDigit h1 = true ∧ isDigit h2 = true).
  { apply orb_prop in Hh as [Hh|Hh]; [apply orb_prop in Hh as [Hh|Hh] |];
      apply andb_prop in Hh as [Ha Hb]; apply Ascii.eqb_eq in Ha as ->;
      (split; [reflexivity |]); try exact Hb.
    destruct h2 as [[] [] [] [] [] [] [] []]; try discriminate Hb; reflexivity. }
  destruct Hh' as [? ?]. by repeat split.
Qed.

Lemma accepted_times_are_five_characters_witness :
  String.length "14:30" = 5%nat.
Proof.
  apply (accepted_times_are_five_characters "14:30"). reflexivity.
Defined.

(* ================================================================= *)
(** ** Feedback ids *)

Section FeedbackIds.
Import FeedbackManager.

Lemma foldr_max_count (n : nat) :
  foldr Z.max 0 (Z.of_nat <$> seq 1 n) = Z.of_nat n.
Proof.
  induction n as [|n IH]; [reflexivity |].
  rewrite List.seq_S, fmap_app, foldr_app. simpl.
  rewrite foldr_max_init by lia. rewrite IH. lia.
Qed.

Lemma handleFeedback_ids form fm (n : nat) :
  Feedback.id <$> feedbacks fm = Z.of_nat <$> seq 1 n ->
  Feedback.id <$> feedbacks (handleFeedback form fm) = Z.of_nat <$> seq 1 (S n).
Proof.
  intros H. rewrite List.seq_S, fmap_app.
  unfold handleFeedback, generateFeedbackId.
  cbn [feedbacks saveFeedbacksToStorage].
  rewrite fmap_app, H, foldr_max_count. simpl.
  do 2 f_equal. lia.
Qed.

End FeedbackIds.

(** X27. A feedback message gets an id above every id already held; on a
    profile without stored feedback the messages are numbered 1, 2, 3,
    ... in the order they are sent, and each one is saved. *)
Theorem feedback_ids_count_up (fm : FeedbackManager.t)
    (forms : list FeedbackManager.submission) (form : FeedbackManager.submission) :
  Forall (fun f => Feedback.id f < FeedbackManager.generateFeedbackId fm)
    (FeedbackManager.feedbacks fm) ∧
  Feedback.id <$>
    FeedbackManager.feedbacks (FeedbackManager.run forms (FeedbackManager.new None))
  = Z.of_nat <$> seq 1 (length forms) ∧
  FeedbackManager.stored (FeedbackManager.handleFeedback form fm)
  = Some (FeedbackManager.feedbacks (FeedbackManager.handleFeedback form fm)).
Proof.
  split; [|split; [|reflexivity]].
  - apply Forall_forall. intros f Hf. unfold FeedbackManager.generateFeedbackId.
    assert (H : Feedback.id f
                <= foldr Z.max 0 (Feedback.id <$> FeedbackManager.feedbacks fm)).
    { apply foldr_max_ge. by apply list_elem_of_fmap_2. }
    lia.
  - unfold FeedbackManager.run.
    assert (H : ∃ n, Feedback.id <$> FeedbackManager.feedbacks (FeedbackManager.new None)
                     = Z.of_nat <$> seq 1 n ∧ (n + length forms = length forms)%nat)
      by (exists 0%nat; split; [reflexivity | lia]).
    destruct H as (n & H & Hn). rewrite <- Hn. clear Hn.
    revert n H. generalize (FeedbackManager.new None).
    induction forms as [|x rest IH]; simpl; intros fm0 n H.
    + by rewrite Nat.add_0_r.
    + rewrite <- Nat.add_succ_comm. apply IH. by apply handleFeedback_ids.
Qed.
